(** * LCOV coverage for VS Code: reconciliation and detail synthesis

    A shallow embedding of the class [LcovParser] (module [lcovParser]) and
    of the load, the aggregation and the detail callback of the class
    [CoverageService] (module [coverageService]), with the properties of
    the engine stated over it.

    Conventions of the embedding:
    - a JavaScript [number] holding a count or a line number is a [Z]
      (the LCOV grammar only produces integers; the embedding does not
      model the loss of precision above [Number.MAX_SAFE_INTEGER]);
    - a JavaScript exception is the [Throw] case of [Result]; [try/catch]
      is [try_catch];
    - [Map<string, V>] iterated in insertion order is [JsMap.t V], an
      association list; maps and sets that are only probed are stdpp's
      [gmap] and [gset];
    - Node's [path] and [fs] modules, [vscode.Uri] and the external
      [lcov-parse] package are the fields of the class [Platform]. *)

From Stdlib Require Import ZArith String Ascii List Lia Bool.
From stdpp Require Import base option list gmap strings pretty.
Import ListNotations.

Local Open Scope string_scope.
Local Open Scope list_scope.
Local Open Scope Z_scope.

(** ** JavaScript preliminaries *)

Definition number := Z.

Definition MAX_SAFE_INTEGER : number := 9007199254740991.

(** Exceptions. *)
Inductive Result (A : Type) : Type :=
| Ok (a : A)
| Throw (message : string).
Arguments Ok {A} a.
Arguments Throw {A} message.

#[global] Instance Result_ret : MRet Result := fun A a => Ok a.
#[global] Instance Result_bind : MBind Result := fun A B f c =>
  match c with
  | Ok a => f a
  | Throw e => Throw e
  end.

(** [try { c } catch (error) { h error.message }] *)
Definition try_catch {A} (c : Result A) (h : string -> A) : A :=
  match c with
  | Ok a => a
  | Throw e => h e
  end.

(** [for (const x of xs) { s = body x s }], aborted by the first exception. *)
Fixpoint for_of {A S} (body : A -> S -> Result S) (xs : list A) (s : S) : Result S :=
  match xs with
  | [] => Ok s
  | x :: xs' => s' ← body x s; for_of body xs' s'
  end.

(** [String.prototype.endsWith] *)
Definition endsWith (s suffix : string) : bool :=
  String.prefix (String.rev suffix) (String.rev s).

(** [s.replace(/\\/g, '/')] *)
Fixpoint replaceBackslashes (s : string) : string :=
  match s with
  | EmptyString => EmptyString
  | String c s' =>
      String (if Ascii.eqb c "\"%char then "/"%char else c) (replaceBackslashes s')
  end.

(** [Map<string, V>]: entries are kept in insertion order; [set] on a key
    that is present replaces the value where the entry stands. *)
Module JsMap.
Definition t (V : Type) := list (string * V).

Definition empty {V} : t V := [].

Fixpoint get {V} (k : string) (m : t V) : option V :=
  match m with
  | [] => None
  | (k', v) :: m' => if String.eqb k k' then Some v else get k m'
  end.

Definition has {V} (k : string) (m : t V) : bool :=
  match get k m with Some _ => true | None => false end.

Fixpoint set {V} (k : string) (v : V) (m : t V) : t V :=
  match m with
  | [] => [(k, v)]
  | (k', v') :: m' =>
      if String.eqb k k' then (k, v) :: m' else (k', v') :: set k v m'
  end.

Definition entries {V} (m : t V) : list (string * V) := m.

Definition size {V} (m : t V) : nat := length m.
End JsMap.

(** ** The records produced by [lcov-parse] *)

Module LcovBranchDetail.
Record t := { line : number; block : number; branch : number; taken : number }.
End LcovBranchDetail.

Module LcovFunctionDetail.
Record t := { name : string; line : number; hit : number }.
End LcovFunctionDetail.

Module LcovLineDetail.
Record t := { line : number; hit : number }.
End LcovLineDetail.

(** [{ found: number; hit: number; details?: D[] }] *)
Record Summary (D : Type) := {
  found : number;
  hit : number;
  details : option (list D)
}.
Arguments found {D} _.
Arguments hit {D} _.
Arguments details {D} _.

Record LcovFileRecord := {
  file : string;
  lines : Summary LcovLineDetail.t;
  functions : Summary LcovFunctionDetail.t;
  branches : Summary LcovBranchDetail.t
}.

(** ** The value classes of the [vscode] API used by the parser *)

Record Position := { pos_line : number; pos_character : number }.

(** [new vscode.Position(line, character)] rejects negative arguments. *)
Definition Position_new (line character : number) : Result Position :=
  if line <? 0 then Throw "Illegal argument: line must be non-negative"
  else if character <? 0 then Throw "Illegal argument: character must be non-negative"
  else Ok {| pos_line := line; pos_character := character |}.

Definition Position_isBefore (a b : Position) : bool :=
  if pos_line a <? pos_line b then true
  else if pos_line b <? pos_line a then false
  else pos_character a <? pos_character b.

Record Range := { range_start : Position; range_end : Position }.

(** [new vscode.Range(startLine, startCharacter, endLine, endCharacter)] *)
Definition Range_new (startLine startCharacter endLine endCharacter : number)
  : Result Range :=
  s ← Position_new startLine startCharacter;
  e ← Position_new endLine endCharacter;
  if Position_isBefore s e
  then Ok {| range_start := s; range_end := e |}
  else Ok {| range_start := e; range_end := s |}.

(** The [executed: number | boolean] field of the coverage items. *)
Inductive Executed :=
| ExecutedCount (n : number)
| ExecutedFlag (b : bool).

Record BranchCoverage := {
  bc_executed : Executed;
  bc_location : Position;
  bc_label : string
}.

Inductive FileCoverageDetail :=
| StatementCoverage (executed : Executed) (location : Range)
    (branches : list BranchCoverage)
| DeclarationCoverage (name : string) (executed : Executed) (location : Range).

Definition isDeclaration (d : FileCoverageDetail) : bool :=
  match d with DeclarationCoverage _ _ _ => true | StatementCoverage _ _ _ => false end.

Definition isStatement (d : FileCoverageDetail) : bool :=
  match d with StatementCoverage _ _ _ => true | DeclarationCoverage _ _ _ => false end.

Definition detail_location (d : FileCoverageDetail) : Range :=
  match d with
  | StatementCoverage _ location _ => location
  | DeclarationCoverage _ _ location => location
  end.

(** The zero-based line an item starts on. *)
Definition detail_startLine (d : FileCoverageDetail) : number :=
  pos_line (range_start (detail_location d)).

Definition detail_branches (d : FileCoverageDetail) : list BranchCoverage :=
  match d with
  | StatementCoverage _ _ branches => branches
  | DeclarationCoverage _ _ _ => []
  end.

(** ** [LcovParser.loadDetailedCoverageForRecord] *)

(** Body of the loop over [record.branches.details]. *)
Definition collectBranch (branch : LcovBranchDetail.t)
    (branchesByLine : gmap Z (list BranchCoverage))
  : Result (gmap Z (list BranchCoverage)) :=
  let line := LcovBranchDetail.line branch in
  let branchesByLine :=
    match branchesByLine !! line with
    | Some _ => branchesByLine
    | None => <[line := []]> branchesByLine
    end in
  position ← Position_new (line - 1) 0;
  let taken := 0 <? LcovBranchDetail.taken branch in
  let branchCoverage :=
    {| bc_executed := ExecutedFlag taken;
       bc_location := position;
       bc_label := "Branch " +:+ pretty (LcovBranchDetail.block branch) +:+ ":"
                   +:+ pretty (LcovBranchDetail.branch branch) +:+ " "
                   +:+ (if taken then "taken" else "not taken") |} in
  Ok (match branchesByLine !! line with
      | Some bs => <[line := bs ++ [branchCoverage]]> branchesByLine
      | None => branchesByLine
      end).

(** Body of the loop over [record.functions.details]; the state is
    [details] and [processedLines]. *)
Definition declareFunction (func : LcovFunctionDetail.t)
    (st : list FileCoverageDetail * gset Z)
  : Result (list FileCoverageDetail * gset Z) :=
  let line := LcovFunctionDetail.line func in
  if 0 <? line then
    range ← Range_new (line - 1) 0 (line - 1) MAX_SAFE_INTEGER;
    Ok (st.1 ++ [DeclarationCoverage (LcovFunctionDetail.name func)
                   (ExecutedFlag (0 <? LcovFunctionDetail.hit func)) range],
        {[ line ]} ∪ st.2)
  else Ok st.

(** Body of the loop over [record.lines.details]. *)
Definition coverLine (branchesByLine : gmap Z (list BranchCoverage))
    (processedLines : gset Z) (line : LcovLineDetail.t)
    (details : list FileCoverageDetail)
  : Result (list FileCoverageDetail) :=
  if bool_decide (LcovLineDetail.line line ∈ processedLines) then Ok details
  else
    range ← Range_new (LcovLineDetail.line line - 1) 0
                      (LcovLineDetail.line line - 1) MAX_SAFE_INTEGER;
    let branches := default [] (branchesByLine !! LcovLineDetail.line line) in
    let executed :=
      if 0 <? LcovLineDetail.hit line
      then ExecutedCount (LcovLineDetail.hit line)
      else ExecutedFlag false in
    if (0 <? length branches)%nat
    then Ok (details ++ [StatementCoverage executed range branches])
    else Ok (details ++ [StatementCoverage executed range []]).

Definition loadDetailedCoverageForRecord (record : LcovFileRecord)
  : Result (list FileCoverageDetail) :=
  match details (lines record) with
  | None | Some [] => Ok []
  | Some lineDetails =>
      branchesByLine ←
        match details (branches record) with
        | Some ((_ :: _) as branchDetails) => for_of collectBranch branchDetails ∅
        | _ => Ok ∅
        end;
      st ←
        match details (functions record) with
        | Some ((_ :: _) as functionDetails) =>
            for_of declareFunction functionDetails ([], ∅)
        | _ => Ok ([], ∅)
        end;
      for_of (coverLine branchesByLine st.2) lineDetails st.1
  end.

Definition roundTripRecord : LcovFileRecord :=
  {| file := "src/util.ts";
     lines := {| found := 1; hit := 1;
                 details := Some [ {| LcovLineDetail.line := 5; LcovLineDetail.hit := 3 |} ] |};
     functions := {| found := 0; hit := 0; details := None |};
     branches := {| found := 2; hit := 1;
                    details := Some [
                      {| LcovBranchDetail.line := 5; LcovBranchDetail.block := 0;
                         LcovBranchDetail.branch := 0; LcovBranchDetail.taken := 0 |};
                      {| LcovBranchDetail.line := 5; LcovBranchDetail.block := 0;
                         LcovBranchDetail.branch := 1; LcovBranchDetail.taken := 2 |} ] |} |}.

(** ** The platform: Node's [path] and [fs], [vscode.Uri], [lcov-parse] *)

(** A [vscode.Uri] as the code observes it: [uri.toString()], [uri.fsPath]
    and [uri.scheme]. *)
Record Uri := { uri_toString : string; uri_fsPath : string; uri_scheme : string }.

(** [vscode.TestCoverageCount] *)
Record TestCoverageCount := { covered : number; total : number }.

Class Platform := {
  (** [path.isAbsolute], [path.join], [path.basename] *)
  path_isAbsolute : string -> bool;
  path_join : list string -> string;
  path_basename : string -> string;
  (** [fs.existsSync], over the file system as it stands during a load *)
  fs_existsSync : string -> bool;
  (** [vscode.Uri.file] *)
  Uri_file : string -> Uri;
  (** the argument check of [new vscode.FileCoverage(uri, statement, branch,
      declaration)] *)
  FileCoverage_validate :
    TestCoverageCount -> option TestCoverageCount -> option TestCoverageCount ->
    Result unit;
  (** [promisify(require('lcov-parse'))] *)
  parseLcov : string -> Result (list LcovFileRecord);
  (** [(covered / total * 100).toFixed(2)] on IEEE doubles *)
  percentage_toFixed2 : number -> number -> string
}.

(** A [vscode.FileCoverage] object. [fc_id] is the identity of the object,
    which is what the [WeakMap] of [CoverageService] is keyed by. *)
Record FileCoverage := {
  fc_id : nat;
  fc_uri : Uri;
  statementCoverage : TestCoverageCount;
  branchCoverage : option TestCoverageCount;
  declarationCoverage : option TestCoverageCount
}.

Inductive Notification :=
| ShowErrorMessage (message : string)
| ShowWarningMessage (message : string).

(** The fields of an [LcovParser]; [objectCount] counts the [FileCoverage]
    objects allocated so far and gives the next one its identity. *)
Record LcovParser := {
  fileRecordMap : JsMap.t LcovFileRecord;
  fileCoverageInstanceMap : JsMap.t FileCoverage;
  objectCount : nat
}.

Definition newLcovParser : LcovParser :=
  {| fileRecordMap := JsMap.empty;
     fileCoverageInstanceMap := JsMap.empty;
     objectCount := 0 |}.

Definition clearFileRecords (p : LcovParser) : LcovParser :=
  {| fileRecordMap := JsMap.empty;
     fileCoverageInstanceMap := JsMap.empty;
     objectCount := objectCount p |}.

Definition commonDirs : list string := ["src"; "lib"; "app"; "components"].

Section Parser.
Context {platform : Platform}.

(** *** [LcovParser.parse] *)
Definition parse (lcovFilePath : string) : list LcovFileRecord * list Notification :=
  try_catch
    (_ ← (if negb (fs_existsSync lcovFilePath)
          then Throw ("LCOV file not found: " +:+ lcovFilePath)
          else Ok tt);
     records ← parseLcov lcovFilePath;
     Ok (records, []))
    (fun message =>
       ([], [ShowErrorMessage ("Error parsing LCOV file: " +:+ message)])).

(** *** [LcovParser.convertToFileCoverage] *)

(** [if (!cache.has(p)) { cache.set(p, fs.existsSync(p)); }] followed by
    [cache.get(p) || false]. *)
Definition cachedExists (p : string) (fileExistsCache : gmap string bool)
  : bool * gmap string bool :=
  let fileExistsCache :=
    match fileExistsCache !! p with
    | Some _ => fileExistsCache
    | None => <[p := fs_existsSync p]> fileExistsCache
    end in
  (default false (fileExistsCache !! p), fileExistsCache).

(** The loop over [commonDirs], left by [break] at the first hit. *)
Fixpoint probeCommonDirs (workspaceFolder fileName : string) (dirs : list string)
    (fileExistsCache : gmap string bool)
  : option string * gmap string bool :=
  match dirs with
  | [] => (None, fileExistsCache)
  | dir :: dirs' =>
      let potentialPath := path_join [workspaceFolder; dir; fileName] in
      let '(found, fileExistsCache) := cachedExists potentialPath fileExistsCache in
      if found then (Some potentialPath, fileExistsCache)
      else probeCommonDirs workspaceFolder fileName dirs' fileExistsCache
  end.

(** The path resolution at the head of the loop body: [Some
    resolvedFilePath] when [fileExists] ends up true, [None] when the
    record is skipped. *)
Definition resolveFilePath (workspaceFolder recordFile : string)
    (fileExistsCache : gmap string bool)
  : option string * gmap string bool :=
  let resolvedFilePath := recordFile in
  let '(fileExists, fileExistsCache) :=
    if path_isAbsolute recordFile
    then cachedExists recordFile fileExistsCache
    else (false, fileExistsCache) in
  let '(resolvedFilePath, fileExists, fileExistsCache) :=
    if negb fileExists then
      let joined := path_join [workspaceFolder; recordFile] in
      let '(found, fileExistsCache) := cachedExists joined fileExistsCache in
      (joined, found, fileExistsCache)
    else (resolvedFilePath, fileExists, fileExistsCache) in
  if negb fileExists then
    probeCommonDirs workspaceFolder (path_basename recordFile) commonDirs
      fileExistsCache
  else (Some resolvedFilePath, fileExistsCache).

(** The state of the loop: [result], [fileExistsCache] and the parser. *)
Definition ConvertState : Type :=
  list FileCoverage * gmap string bool * LcovParser.

Definition convertRecord (workspaceFolder : string) (record : LcovFileRecord)
    (st : ConvertState) : ConvertState :=
  let '(result, fileExistsCache, parser) := st in
  let '(resolved, fileExistsCache) :=
    resolveFilePath workspaceFolder (file record) fileExistsCache in
  match resolved with
  | None => (result, fileExistsCache, parser)
  | Some resolvedFilePath =>
      let uri := Uri_file resolvedFilePath in
      let uriString := uri_toString uri in
      let parser :=
        {| fileRecordMap := JsMap.set uriString record (fileRecordMap parser);
           fileCoverageInstanceMap := fileCoverageInstanceMap parser;
           objectCount := objectCount parser |} in
      let branchCoverage :=
        if 0 <? found (branches record)
        then Some {| covered := hit (branches record);
                     total := found (branches record) |}
        else None in
      let declarationCoverage :=
        if 0 <? found (functions record)
        then Some {| covered := hit (functions record);
                     total := found (functions record) |}
        else None in
      let statementCoverage :=
        {| covered := hit (lines record); total := found (lines record) |} in
      match FileCoverage_validate statementCoverage branchCoverage
              declarationCoverage with
      | Throw _ => (result, fileExistsCache, parser)
      | Ok _ =>
          let fileCoverage :=
            {| fc_id := objectCount parser;
               fc_uri := uri;
               statementCoverage := statementCoverage;
               branchCoverage := branchCoverage;
               declarationCoverage := declarationCoverage |} in
          (result ++ [fileCoverage],
           fileExistsCache,
           {| fileRecordMap := fileRecordMap parser;
              fileCoverageInstanceMap :=
                JsMap.set uriString fileCoverage (fileCoverageInstanceMap parser);
              objectCount := S (objectCount parser) |})
      end
  end.

Definition convertToFileCoverage (records : list LcovFileRecord)
    (workspaceFolder : string) (parser : LcovParser)
  : list FileCoverage * LcovParser :=
  let st :=
    fold_left (fun st record => convertRecord workspaceFolder record st) records
      ([], ∅, clearFileRecords parser) in
  (st.1.1, st.2).

(** *** [LcovParser.getFileRecord] *)

(** The four tests of the loop body, in the order of the source. *)
Definition matchesDirect (filePath : string) (value : LcovFileRecord) : bool :=
  String.eqb (file value) filePath.

Definition matchesSuffix (filePath : string) (value : LcovFileRecord) : bool :=
  endsWith filePath (file value).

Definition matchesNormalizedSuffix (filePath : string) (value : LcovFileRecord)
  : bool :=
  endsWith (replaceBackslashes filePath) (replaceBackslashes (file value)).

Definition matchesFileName (filePath : string) (value : LcovFileRecord) : bool :=
  String.eqb (path_basename filePath) (path_basename (file value)).

(** The loop over [this.fileRecordMap.entries()]. *)
Fixpoint findByPath (filePath : string) (entries : list (string * LcovFileRecord))
  : option LcovFileRecord :=
  match entries with
  | [] => None
  | (_, value) :: rest =>
      if matchesDirect filePath value then Some value
      else if matchesSuffix filePath value then Some value
      else if matchesNormalizedSuffix filePath value then Some value
      else if matchesFileName filePath value then Some value
      else findByPath filePath rest
  end.

Definition cacheRecord (uriString : string) (value : LcovFileRecord)
    (parser : LcovParser) : LcovParser :=
  {| fileRecordMap := JsMap.set uriString value (fileRecordMap parser);
     fileCoverageInstanceMap := fileCoverageInstanceMap parser;
     objectCount := objectCount parser |}.

Definition getFileRecord (uri : Uri) (parser : LcovParser)
  : option LcovFileRecord * LcovParser :=
  let uriString := uri_toString uri in
  match JsMap.get uriString (fileRecordMap parser) with
  | Some record => (Some record, parser)
  | None =>
      match findByPath (uri_fsPath uri) (JsMap.entries (fileRecordMap parser)) with
      | Some value => (Some value, cacheRecord uriString value parser)
      | None => (None, parser)
      end
  end.

(** *** [LcovParser.loadDetailedCoverage] *)
Definition loadDetailedCoverage (uri : Uri) (parser : LcovParser)
  : list FileCoverageDetail * LcovParser :=
  let uriString := uri_toString uri in
  let '(record, parser) :=
    match JsMap.get uriString (fileRecordMap parser) with
    | Some record => (Some record, parser)
    | None => getFileRecord uri parser
    end in
  match record with
  | None => ([], parser)
  | Some record =>
      (try_catch (loadDetailedCoverageForRecord record) (fun _ => []), parser)
  end.

Definition getFileCoverageInstance (uri : Uri) (parser : LcovParser)
  : option FileCoverage :=
  JsMap.get (uri_toString uri) (fileCoverageInstanceMap parser).
End Parser.

Arguments cachedExists {platform} p fileExistsCache : simpl never.

(** ** [CoverageService] *)

Record CoverageStats := {
  totalLines : number;
  coveredLines : number;
  coveragePercentage : string
}.

(** The fields of a [CoverageService] that the load and the detail callback
    use. [fileCoverageRecordMap] is the [WeakMap<vscode.FileCoverage, any>],
    keyed by the identity of the [FileCoverage] object. Progress reports,
    the test run object and the file watcher are not modelled. *)
Record CoverageService := {
  parser : LcovParser;
  fileCoverageRecordMap : gmap nat LcovFileRecord;
  statusBarText : string;
  statusBarTooltip : string
}.

Definition newCoverageService : CoverageService :=
  {| parser := newLcovParser;
     fileCoverageRecordMap := ∅;
     statusBarText := "$(shield) LCOV Coverage";
     statusBarTooltip := "Select LCOV file to show coverage" |}.

(** What one call of [loadCoverage] did: the messages shown, the statistics
    handed to [updateStatusBar] (if that point was reached) and the
    coverage objects passed to [run.addCoverage], in order. *)
Record LoadOutcome := {
  notifications : list Notification;
  shownStats : option CoverageStats;
  addedCoverage : list FileCoverage
}.

Section Service.
Context {platform : Platform}.

(** *** [CoverageService.calculateCoverageStats] *)
Definition calculateCoverageStats (records : list LcovFileRecord) : CoverageStats :=
  let sums :=
    fold_left
      (fun (acc : number * number) record =>
         (acc.1 + found (lines record), acc.2 + hit (lines record)))
      records (0, 0) in
  {| totalLines := sums.1;
     coveredLines := sums.2;
     coveragePercentage :=
       if 0 <? sums.1 then percentage_toFixed2 sums.2 sums.1 else "0" |}.

(** *** [CoverageService.updateStatusBar] *)
Definition updateStatusBar (stats : CoverageStats) (svc : CoverageService)
  : CoverageService :=
  {| parser := parser svc;
     fileCoverageRecordMap := fileCoverageRecordMap svc;
     statusBarText := coveragePercentage stats +:+ "% Coverage";
     statusBarTooltip := pretty (coveredLines stats) +:+ "/"
                         +:+ pretty (totalLines stats) +:+ " lines covered" |}.

(** *** [CoverageService.processCoverageFiles] *)

(** The loop over [fileCoverages]. [token n] is the value of
    [token.isCancellationRequested] at the [n]-th time the load reads it;
    [check] counts the reads made so far. *)
Fixpoint addCoverages (token : nat -> bool) (check : nat)
    (fileCoverages : list FileCoverage) (added : list FileCoverage)
    (svc : CoverageService) : list FileCoverage * CoverageService :=
  match fileCoverages with
  | [] => (added, svc)
  | coverage :: rest =>
      if token check then (added, svc)
      else
        let '(record, parser') := getFileRecord (fc_uri coverage) (parser svc) in
        let svc :=
          {| parser := parser';
             fileCoverageRecordMap :=
               match record with
               | Some record => <[fc_id coverage := record]> (fileCoverageRecordMap svc)
               | None => fileCoverageRecordMap svc
               end;
             statusBarText := statusBarText svc;
             statusBarTooltip := statusBarTooltip svc |} in
        addCoverages token (S check) rest (added ++ [coverage]) svc
  end.

Definition processCoverageFiles (records : list LcovFileRecord)
    (workspaceUri : string) (token : nat -> bool) (check : nat)
    (svc : CoverageService) : list FileCoverage * CoverageService :=
  let '(fileCoverages, parser') :=
    convertToFileCoverage records workspaceUri (parser svc) in
  addCoverages token check fileCoverages []
    {| parser := parser';
       fileCoverageRecordMap := fileCoverageRecordMap svc;
       statusBarText := statusBarText svc;
       statusBarTooltip := statusBarTooltip svc |}.

(** *** [CoverageService.loadCoverage]

    [workspaceFolder] is the [fsPath] of
    [vscode.workspace.workspaceFolders?.[0]]. *)
Definition loadCoverage (lcovFilePath : string) (workspaceFolder : option string)
    (token : nat -> bool) (svc : CoverageService)
  : LoadOutcome * CoverageService :=
  match workspaceFolder with
  | None =>
      ({| notifications := [ShowErrorMessage "No workspace folder found."];
          shownStats := None; addedCoverage := [] |}, svc)
  | Some workspaceFolder =>
      let '(records, messages) := parse lcovFilePath in
      if token 0%nat then
        ({| notifications := messages; shownStats := None; addedCoverage := [] |},
         svc)
      else if (length records =? 0)%nat then
        ({| notifications :=
              messages ++ [ShowWarningMessage "No coverage data found in the LCOV file."];
            shownStats := None; addedCoverage := [] |}, svc)
      else
        let stats := calculateCoverageStats records in
        if token 1%nat then
          ({| notifications := messages; shownStats := None; addedCoverage := [] |},
           svc)
        else
          let svc := updateStatusBar stats svc in
          if token 2%nat then
            ({| notifications := messages; shownStats := Some stats;
                addedCoverage := [] |}, svc)
          else
            let '(added, svc) :=
              processCoverageFiles records workspaceFolder token 3 svc in
            ({| notifications := messages; shownStats := Some stats;
                addedCoverage := added |}, svc)
  end.

(** *** The [profile.loadDetailedCoverage] callback *)
Definition profile_loadDetailedCoverage (fileCoverage : FileCoverage)
    (svc : CoverageService) : list FileCoverageDetail * CoverageService :=
  let scheme := uri_scheme (fc_uri fileCoverage) in
  if String.eqb scheme EmptyString || String.eqb scheme "file" then
    let '(record, parser') :=
      match fileCoverageRecordMap svc !! fc_id fileCoverage with
      | Some record => (Some record, parser svc)
      | None => getFileRecord (fc_uri fileCoverage) (parser svc)
      end in
    let svc :=
      {| parser := parser';
         fileCoverageRecordMap := fileCoverageRecordMap svc;
         statusBarText := statusBarText svc;
         statusBarTooltip := statusBarTooltip svc |} in
    match record with
    | Some record =>
        (try_catch (loadDetailedCoverageForRecord record) (fun _ => []), svc)
    | None => ([], svc)
    end
  else ([], svc).
End Service.

(** ** A POSIX platform

    An instance of [Platform] for a POSIX host: [path] is [path.posix],
    the file system is the list of the paths that exist, and [lcov-parse]
    is given by what it returns for each report file. [Uri_file] covers
    the paths that neither start with two slashes nor hold a drive
    letter. *)
Module Posix.
Definition slash : ascii := "/"%char.

Definition startsWithSlash (s : string) : bool :=
  match s with
  | String c _ => Ascii.eqb c slash
  | EmptyString => false
  end.

Definition endsWithSlash (s : string) : bool := startsWithSlash (String.rev s).

(** [s.split('/')] *)
Fixpoint split (s : string) : list string :=
  match s with
  | EmptyString => [EmptyString]
  | String c s' =>
      if Ascii.eqb c slash then EmptyString :: split s'
      else match split s' with
           | seg :: segs => String c seg :: segs
           | [] => [String c EmptyString]
           end
  end.

(** [normalizeString]: [res] holds the segments kept so far, last first. *)
Fixpoint normalizeSegments (allowAboveRoot : bool) (segs res : list string)
  : list string :=
  match segs with
  | [] => rev res
  | seg :: segs' =>
      if String.eqb seg EmptyString || String.eqb seg "." then
        normalizeSegments allowAboveRoot segs' res
      else if String.eqb seg ".." then
        match res with
        | last :: res' =>
            if String.eqb last ".."
            then normalizeSegments allowAboveRoot segs' (".." :: res)
            else normalizeSegments allowAboveRoot segs' res'
        | [] =>
            normalizeSegments allowAboveRoot segs'
              (if allowAboveRoot then [".."] else [])
        end
      else normalizeSegments allowAboveRoot segs' (seg :: res)
  end.

Definition normalize (path : string) : string :=
  if String.eqb path EmptyString then "."
  else
    let isAbsolute := startsWithSlash path in
    let trailingSeparator := endsWithSlash path in
    let p := String.concat "/" (normalizeSegments (negb isAbsolute) (split path) []) in
    if String.eqb p EmptyString then
      if isAbsolute then "/" else if trailingSeparator then "./" else "."
    else
      let p := if trailingSeparator then p +:+ "/" else p in
      if isAbsolute then "/" +:+ p else p.

Definition join (args : list string) : string :=
  match List.filter (fun a => negb (String.eqb a EmptyString)) args with
  | [] => "."
  | parts => normalize (String.concat "/" parts)
  end.

Fixpoint dropEmpty (segs : list string) : list string :=
  match segs with
  | seg :: segs' => if String.eqb seg EmptyString then dropEmpty segs' else segs
  | [] => []
  end.

(** [path.basename(p)]: the last segment, trailing separators ignored. *)
Definition basename (path : string) : string :=
  match dropEmpty (rev (split path)) with
  | seg :: _ => seg
  | [] => EmptyString
  end.

Definition hexDigit (n : N) : ascii :=
  if (n <? 10)%N then ascii_of_N (48 + n) else ascii_of_N (55 + n).

Definition unreserved (c : ascii) : bool :=
  let n := N_of_ascii c in
  ((48 <=? n) && (n <=? 57) || (65 <=? n) && (n <=? 90)
   || (97 <=? n) && (n <=? 122))%N
  || Ascii.eqb c "-" || Ascii.eqb c "." || Ascii.eqb c "_" || Ascii.eqb c "~"
  || Ascii.eqb c slash.

Fixpoint encodePath (s : string) : string :=
  match s with
  | EmptyString => EmptyString
  | String c s' =>
      if unreserved c then String c (encodePath s')
      else String "%" (String (hexDigit (N_of_ascii c / 16))
                         (String (hexDigit (N_of_ascii c mod 16)) (encodePath s')))
  end.

Definition file_uri (path : string) : Uri :=
  let path := if startsWithSlash path then path else "/" +:+ path in
  {| uri_toString := "file://" +:+ encodePath path;
     uri_fsPath := path;
     uri_scheme := "file" |}.

Definition validateTestCoverageCount (cc : option TestCoverageCount) : Result unit :=
  match cc with
  | None => Ok tt
  | Some cc =>
      if total cc <? covered cc
      then Throw "The total number of covered items cannot be greater than the total"
      else if total cc <? 0
      then Throw "The number of covered items cannot be negative"
      else Ok tt
  end.

Definition twoDigits (n : Z) : string :=
  if n <? 10 then "0" +:+ pretty n else pretty n.

(** [covered / total * 100] to two decimals, computed on the exact
    quotient, for [0 <= covered] and [0 < total]. *)
Definition toFixed2 (covered total : number) : string :=
  let q := (2 * covered * 10000 + total) / (2 * total) in
  pretty (q / 100) +:+ "." +:+ twoDigits (q mod 100).

Definition platform (files : list string)
    (reports : list (string * Result (list LcovFileRecord))) : Platform :=
  {| path_isAbsolute := startsWithSlash;
     path_join := join;
     path_basename := basename;
     fs_existsSync p := existsb (String.eqb p) files;
     Uri_file := file_uri;
     FileCoverage_validate s b d :=
       _ ← validateTestCoverageCount (Some s);
       _ ← validateTestCoverageCount b;
       validateTestCoverageCount d;
     parseLcov p := default (Throw "Failed to parse string") (JsMap.get p reports);
     percentage_toFixed2 := toFixed2 |}.
End Posix.

(** ** Notions used to state the properties *)

(** The function details of a record, [[]] when absent. *)
Definition functionDetails (record : LcovFileRecord) : list LcovFunctionDetail.t :=
  default [] (details (functions record)).

Definition branchDetails (record : LcovFileRecord) : list LcovBranchDetail.t :=
  default [] (details (branches record)).

Definition lineDetails (record : LcovFileRecord) : list LcovLineDetail.t :=
  default [] (details (lines record)).

(** A line is claimed when a function detail with a positive line number
    names it. *)
Definition claimed (record : LcovFileRecord) (l : number) : Prop :=
  exists func, func ∈ functionDetails record /\ LcovFunctionDetail.line func = l /\ 0 < l.

(** Every mark stored under a line is positioned on that line. *)
Definition branchesAtOwnLine (m : gmap Z (list BranchCoverage)) : Prop :=
  forall l bs b, m !! l = Some bs -> b ∈ bs -> pos_line (bc_location b) = l - 1.

(** [d] is the item the function loop emits for some claimed line. *)
Definition declarationOf (record : LcovFileRecord) (d : FileCoverageDetail) : Prop :=
  isDeclaration d /\ exists l, claimed record l /\ detail_startLine d = l - 1.

(** [s] is the item the line loop emits for a line detail that is not
    claimed; its marks sit on its own line. *)
Definition statementOf (record : LcovFileRecord) (s : FileCoverageDetail) : Prop :=
  isStatement s /\
  exists line, line ∈ lineDetails record /\ ~ claimed record (LcovLineDetail.line line) /\
    detail_startLine s = LcovLineDetail.line line - 1 /\
    forall b, b ∈ detail_branches s ->
      pos_line (bc_location b) = LcovLineDetail.line line - 1.

(** The record has no line-level data. *)
Definition noLineDetails (record : LcovFileRecord) : Prop :=
  details (lines record) = None \/ details (lines record) = Some [].

Section Notions.
Context {platform : Platform}.

(** The existence cache only holds what [fs.existsSync] answered. *)
Definition cacheConsistent (fileExistsCache : gmap string bool) : Prop :=
  forall p b, fileExistsCache !! p = Some b -> b = fs_existsSync p.

(** The Path Resolver as the specification words it: the reported path if
    it is absolute and exists; else the path joined onto the workspace
    root if that exists; else the first existing probe of the base
    filename under [src], [lib], [app], [components]; else not found. *)
Definition resolve_spec (workspaceRoot reportedPath : string) : option string :=
  if path_isAbsolute reportedPath && fs_existsSync reportedPath
  then Some reportedPath
  else if fs_existsSync (path_join [workspaceRoot; reportedPath])
  then Some (path_join [workspaceRoot; reportedPath])
  else List.find fs_existsSync
         (map (fun dir => path_join [workspaceRoot; dir; path_basename reportedPath])
              ["src"; "lib"; "app"; "components"]).

(** The identity (URI string) a record is stored under, if its path
    resolves. *)
Definition identityOf (workspaceFolder : string) (record : LcovFileRecord)
  : option string :=
  (fun p => uri_toString (Uri_file p))
    <$> (resolveFilePath workspaceFolder (file record) ∅).1.

(** The record is matched by one of the four tests of [getFileRecord]. *)
Definition matchesAny (filePath : string) (value : LcovFileRecord) : bool :=
  matchesDirect filePath value || matchesSuffix filePath value
  || matchesNormalizedSuffix filePath value || matchesFileName filePath value.

(** A sequence of [getFileRecord] calls. *)
Definition probeAll (probes : list Uri) (parser : LcovParser) : LcovParser :=
  fold_left (fun parser uri => (getFileRecord uri parser).2) probes parser.
End Notions.

Definition sumZ (l : list Z) : Z := foldr Z.add 0 l.

(** ** Sample data *)

Definition wholeLine (line : number) : Range :=
  {| range_start := {| pos_line := line - 1; pos_character := 0 |};
     range_end := {| pos_line := line - 1; pos_character := MAX_SAFE_INTEGER |} |}.

Definition branchMark (line block branch : number) (taken : bool) : BranchCoverage :=
  {| bc_executed := ExecutedFlag taken;
     bc_location := {| pos_line := line - 1; pos_character := 0 |};
     bc_label := "Branch " +:+ pretty block +:+ ":" +:+ pretty branch +:+ " "
                 +:+ (if taken then "taken" else "not taken") |}.

(** What the round-trip record must synthesize to. *)
Definition roundTripDetails : list FileCoverageDetail :=
  [ StatementCoverage (ExecutedCount 3) (wholeLine 5)
      [ branchMark 5 0 0 false; branchMark 5 0 1 true ] ].

(** A record with a function on line 3, a function detail without a line,
    and branches on lines 3 and 4. *)
Definition sampleRecord : LcovFileRecord :=
  {| file := "src/sample.ts";
     lines := {| found := 3; hit := 2;
                 details := Some [
                   {| LcovLineDetail.line := 3; LcovLineDetail.hit := 1 |};
                   {| LcovLineDetail.line := 4; LcovLineDetail.hit := 2 |};
                   {| LcovLineDetail.line := 5; LcovLineDetail.hit := 0 |} ] |};
     functions := {| found := 2; hit := 1;
                     details := Some [
                       {| LcovFunctionDetail.name := "f";
                          LcovFunctionDetail.line := 3;
                          LcovFunctionDetail.hit := 1 |};
                       {| LcovFunctionDetail.name := "g";
                          LcovFunctionDetail.line := 0;
                          LcovFunctionDetail.hit := 0 |} ] |};
     branches := {| found := 3; hit := 2;
                    details := Some [
                      {| LcovBranchDetail.line := 3; LcovBranchDetail.block := 0;
                         LcovBranchDetail.branch := 0; LcovBranchDetail.taken := 1 |};
                      {| LcovBranchDetail.line := 4; LcovBranchDetail.block := 0;
                         LcovBranchDetail.branch := 0; LcovBranchDetail.taken := 1 |};
                      {| LcovBranchDetail.line := 4; LcovBranchDetail.block := 0;
                         LcovBranchDetail.branch := 1; LcovBranchDetail.taken := 0 |} ] |} |}.

Definition sampleDetails : list FileCoverageDetail :=
  [ DeclarationCoverage "f" (ExecutedFlag true) (wholeLine 3);
    StatementCoverage (ExecutedCount 2) (wholeLine 4)
      [ branchMark 4 0 0 true; branchMark 4 0 1 false ];
    StatementCoverage (ExecutedFlag false) (wholeLine 5) [] ].

(** A record with summary counts only. *)
Definition summaryOnlyRecord : LcovFileRecord :=
  {| file := "src/summary.ts";
     lines := {| found := 10; hit := 7; details := None |};
     functions := {| found := 0; hit := 0; details := None |};
     branches := {| found := 0; hit := 0; details := None |} |}.

Definition summaryRecord (path : string) (linesFound linesHit : number)
  : LcovFileRecord :=
  {| file := path;
     lines := {| found := linesFound; hit := linesHit; details := None |};
     functions := {| found := 0; hit := 0; details := None |};
     branches := {| found := 0; hit := 0; details := None |} |}.

(** A workspace [/ws] holding [lib/util.ts] and [src/util.ts], and the
    report [coverage/lcov.info] with one record for each. *)
Definition libRecord : LcovFileRecord := summaryRecord "lib/util.ts" 4 2.
Definition srcRecord : LcovFileRecord := summaryRecord "src/util.ts" 8 8.
Definition srcRecordAgain : LcovFileRecord := summaryRecord "/ws/src/util.ts" 8 5.

Definition utilWorkspace : Platform :=
  Posix.platform ["/ws/lib/util.ts"; "/ws/src/util.ts"; "/ws/coverage/lcov.info"]
    [("/ws/coverage/lcov.info", Ok [libRecord; srcRecord])].

Definition utilStore : LcovParser :=
  (convertToFileCoverage (platform := utilWorkspace) [libRecord; srcRecord] "/ws"
     newLcovParser).2.

(** The URI of the same source file seen under another mount point. *)
Definition movedProbe : Uri := Posix.file_uri "/mnt/ws/src/util.ts".

(** A report whose only record names a file that exists nowhere. *)
Definition missingRecord : LcovFileRecord := summaryRecord "/abs/missing.ts" 10 7.

Definition missingWorkspace : Platform :=
  Posix.platform ["/ws/coverage/lcov.info"]
    [("/ws/coverage/lcov.info", Ok [missingRecord])].

(** A record with no instrumented line but a hit count. *)
Definition zeroFoundRecord : LcovFileRecord := summaryRecord "src/empty.ts" 0 5.

Definition neverCancelled : nat -> bool := fun _ => false.

(** ** Further members of [LcovParser] and [CoverageService] *)

(** [LcovParser.getRecordEntries] and [LcovParser.getRecordCount] *)
Definition getRecordEntries (parser : LcovParser) : list (string * LcovFileRecord) :=
  JsMap.entries (fileRecordMap parser).

Definition getRecordCount (parser : LcovParser) : nat :=
  JsMap.size (fileRecordMap parser).

(** [CoverageService.clearCoverage]: the status bar goes back to its
    initial text; the first component is the information message shown. *)
Definition clearCoverage (svc : CoverageService) : string * CoverageService :=
  ("Coverage data cleared.",
   {| parser := parser svc;
      fileCoverageRecordMap := fileCoverageRecordMap svc;
      statusBarText := "$(shield) LCOV Coverage";
      statusBarTooltip := "Select LCOV file to show coverage" |}).

(** [String.prototype.startsWith] and [s.substring(n)] *)
Definition startsWith (s prefix : string) : bool := String.prefix prefix s.

Fixpoint substringFrom (n : nat) (s : string) : string :=
  match n, s with
  | O, _ => s
  | S n', String _ s' => substringFrom n' s'
  | S _, EmptyString => EmptyString
  end.

(** The items [promptForFileSelection] hands to [showQuickPick]. *)
Module QuickPickItem.
Record t := { label : string; description : string; file : Uri }.
End QuickPickItem.

Section Selection.
Context {platform : Platform}.

(** The [files.map(...)] of [CoverageService.promptForFileSelection];
    [workspaceFolder] is the [fsPath] of the first workspace folder. *)
Definition selectionItems (workspaceFolder : option string) (files : list Uri)
  : list QuickPickItem.t :=
  map (fun file =>
         let displayPath := uri_fsPath file in
         let displayPath :=
           match workspaceFolder with
           | Some folder =>
               if startsWith displayPath folder
               then substringFrom (String.length folder + 1) displayPath
               else displayPath
           | None => displayPath
           end in
         {| QuickPickItem.label := path_basename (uri_fsPath file);
            QuickPickItem.description := displayPath;
            QuickPickItem.file := file |})
      files.
End Selection.

(** ** The earlier revision of [LcovParser.convertToFileCoverage]

    The path resolution at the head of its loop body: the reported path
    if absolute, else joined onto the workspace folder; the record is
    skipped when that one path does not exist. *)
Module Legacy.
Section Legacy.
Context {platform : Platform}.

Definition resolveFilePath (workspaceFolder recordFile : string)
    (fileExistsCache : gmap string bool)
  : option string * gmap string bool :=
  let filePath :=
    if path_isAbsolute recordFile then recordFile
    else path_join [workspaceFolder; recordFile] in
  let '(found, fileExistsCache) := cachedExists filePath fileExistsCache in
  if found then (Some filePath, fileExistsCache) else (None, fileExistsCache).
End Legacy.
End Legacy.

(** ** Closed forms used to state further properties *)

(** The mark the branch loop builds for one branch detail. *)
Definition markOf (branch : LcovBranchDetail.t) : BranchCoverage :=
  branchMark (LcovBranchDetail.line branch) (LcovBranchDetail.block branch)
    (LcovBranchDetail.branch branch) (0 <? LcovBranchDetail.taken branch).

(** The marks of the branch details reported for line [l], in report order. *)
Definition marksOfLine (record : LcovFileRecord) (l : number) : list BranchCoverage :=
  map markOf
    (List.filter (fun branch => LcovBranchDetail.line branch =? l)
       (branchDetails record)).

Definition declarationItem (func : LcovFunctionDetail.t) : FileCoverageDetail :=
  DeclarationCoverage (LcovFunctionDetail.name func)
    (ExecutedFlag (0 <? LcovFunctionDetail.hit func))
    (wholeLine (LcovFunctionDetail.line func)).

(** Decidable form of [claimed]. *)
Definition claimedb (record : LcovFileRecord) (l : number) : bool :=
  existsb (fun func => (LcovFunctionDetail.line func =? l) && (0 <? l))
    (functionDetails record).

Definition statementItem (record : LcovFileRecord) (line : LcovLineDetail.t)
  : FileCoverageDetail :=
  StatementCoverage
    (if 0 <? LcovLineDetail.hit line
     then ExecutedCount (LcovLineDetail.hit line)
     else ExecutedFlag false)
    (wholeLine (LcovLineDetail.line line))
    (marksOfLine record (LcovLineDetail.line line)).

(** The detail items of a record as one expression: nothing without line
    details; else the declarations of the function details with a positive
    line, then the statements of the line details on unclaimed lines. *)
Definition synthesize (record : LcovFileRecord) : list FileCoverageDetail :=
  match lineDetails record with
  | [] => []
  | _ :: _ =>
      map declarationItem
        (List.filter (fun func => 0 <? LcovFunctionDetail.line func)
           (functionDetails record))
      ++ map (statementItem record)
           (List.filter
              (fun line => negb (claimedb record (LcovLineDetail.line line)))
              (lineDetails record))
  end.

(** Every line detail and every branch detail is numbered from 1 on. *)
Definition lineNumbersValid (record : LcovFileRecord) : Prop :=
  (forall line, line ∈ lineDetails record -> 1 <= LcovLineDetail.line line) /\
  (forall branch, branch ∈ branchDetails record -> 1 <= LcovBranchDetail.line branch).

Definition statementCount (record : LcovFileRecord) : TestCoverageCount :=
  {| covered := hit (lines record); total := found (lines record) |}.

Definition branchCount (record : LcovFileRecord) : option TestCoverageCount :=
  if 0 <? found (branches record)
  then Some {| covered := hit (branches record); total := found (branches record) |}
  else None.

Definition declarationCount (record : LcovFileRecord) : option TestCoverageCount :=
  if 0 <? found (functions record)
  then Some {| covered := hit (functions record); total := found (functions record) |}
  else None.

(** A coverage object without its identity. *)
Definition coverageSummary (fc : FileCoverage)
  : Uri * TestCoverageCount * option TestCoverageCount * option TestCoverageCount :=
  (fc_uri fc, statementCoverage fc, branchCoverage fc, declarationCoverage fc).

Section PassNotions.
Context {platform : Platform}.

(** What one record contributes to the result of a pass: a coverage object
    when its path resolves and the constructor accepts its counts. *)
Definition coverageOf (workspaceFolder : string) (record : LcovFileRecord)
  : option (Uri * TestCoverageCount * option TestCoverageCount
            * option TestCoverageCount) :=
  match resolve_spec workspaceFolder (file record) with
  | None => None
  | Some resolved =>
      match FileCoverage_validate (statementCount record) (branchCount record)
              (declarationCount record) with
      | Ok _ => Some (Uri_file resolved, statementCount record,
                      branchCount record, declarationCount record)
      | Throw _ => None
      end
  end.
End PassNotions.

(** The coverage object with identity [id] and the given content. *)
Definition coverageObject (id : nat)
    (summary : Uri * TestCoverageCount * option TestCoverageCount
               * option TestCoverageCount) : FileCoverage :=
  {| fc_id := id;
     fc_uri := summary.1.1.1;
     statementCoverage := summary.1.1.2;
     branchCoverage := summary.1.2;
     declarationCoverage := summary.2 |}.

(** Every handle of the [WeakMap] belongs to an object allocated so far. *)
Definition handlesAllocated (svc : CoverageService) : Prop :=
  forall id record,
    fileCoverageRecordMap svc !! id = Some record ->
    (id < objectCount (parser svc))%nat.

(** A cancellation token that is set when it is read for the [k]-th time
    and stays set. *)
Definition cancelledFrom (k : nat) : nat -> bool := fun n => (k <=? n)%nat.

(** The service after loading the report of [utilWorkspace], and the
    first coverage object that load produced. *)
Definition loadedService : CoverageService :=
  (loadCoverage (platform := utilWorkspace) "/ws/coverage/lcov.info" (Some "/ws")
     neverCancelled newCoverageService).2.

Definition libCoverage : FileCoverage :=
  coverageObject 0
    (Posix.file_uri "/ws/lib/util.ts", statementCount libRecord, None, None).



(** Sample data for the further properties. *)
Definition zeroLineRecord : LcovFileRecord :=
  {| file := "src/zero.ts";
     lines := {| found := 1; hit := 1;
                 details := Some [
                   {| LcovLineDetail.line := 0; LcovLineDetail.hit := 1 |} ] |};
     functions := {| found := 0; hit := 0; details := None |};
     branches := {| found := 0; hit := 0; details := None |} |}.

(** * Properties *)

(** ** The exception monad and the loops *)

Lemma bind_Ok {A B} (c : Result A) (f : A -> Result B) (b : B) :
  c ≫= f = Ok b -> exists a, c = Ok a /\ f a = Ok b.
Proof. destruct c as [a|e]; simpl; [eauto | discriminate]. Qed.

(** Loop invariant rule: [P done s] relates the elements already visited
    to the state reached. *)
Lemma for_of_invariant {A S} (body : A -> S -> Result S)
    (P : list A -> S -> Prop) (xs : list A) (s0 s : S) :
  P [] s0 ->
  (forall visited x s1 s2,
      x ∈ xs -> P visited s1 -> body x s1 = Ok s2 -> P (visited ++ [x]) s2) ->
  for_of body xs s0 = Ok s ->
  P xs s.
Proof.
  intros Hinit Hstep.
  assert (Hgen : forall rest visited s1,
             visited ++ rest = xs -> P visited s1 ->
             for_of body rest s1 = Ok s -> P xs s).
  { induction rest as [|x rest IH]; intros visited s1 Hsplit Hvisited Hrun.
    - simpl in Hrun. injection Hrun as <-.
      rewrite app_nil_r in Hsplit. by subst.
    - simpl in Hrun. apply bind_Ok in Hrun as (s2 & Hbody & Hrun).
      apply (IH (visited ++ [x]) s2); [by rewrite <- app_assoc | | done].
      eapply Hstep; [| done | done].
      subst xs. set_solver. }
  by apply (Hgen xs [] s0).
Qed.

(** A loop whose body cannot throw runs to its end. *)
Lemma for_of_total {A S} (body : A -> S -> Result S) (xs : list A) (s0 : S) :
  (forall x s1, x ∈ xs -> exists s2, body x s1 = Ok s2) ->
  exists s, for_of body xs s0 = Ok s.
Proof.
  revert s0. induction xs as [|x xs IH]; intros s0 Hbody; simpl; [eauto|].
  destruct (Hbody x s0) as [s2 ->]; [set_solver|]. simpl.
  apply IH. intros y s1 Hy. apply Hbody. set_solver.
Qed.

(** ** The [vscode] value classes *)

Lemma Position_new_Ok line character p :
  Position_new line character = Ok p ->
  0 <= line /\ pos_line p = line /\ pos_character p = character.
Proof.
  unfold Position_new. intros Hnew.
  destruct (Z.ltb_spec line 0); [discriminate|].
  destruct (Z.ltb_spec character 0); [discriminate|].
  injection Hnew as <-. simpl. lia.
Qed.

Lemma Position_new_total line character :
  0 <= line -> 0 <= character ->
  Position_new line character =
    Ok {| pos_line := line; pos_character := character |}.
Proof.
  intros Hline Hcharacter. unfold Position_new.
  destruct (Z.ltb_spec line 0); [lia|].
  destruct (Z.ltb_spec character 0); [lia|]. done.
Qed.

(** The whole-line range of the source starts on the line it was asked for. *)
Lemma Range_new_line line r :
  Range_new (line - 1) 0 (line - 1) MAX_SAFE_INTEGER = Ok r ->
  1 <= line /\ pos_line (range_start r) = line - 1.
Proof.
  unfold Range_new. intros Hnew.
  apply bind_Ok in Hnew as (s & Hs & Hnew).
  apply bind_Ok in Hnew as (e & He & Hnew).
  apply Position_new_Ok in Hs as (? & ? & ?).
  apply Position_new_Ok in He as (? & ? & ?).
  destruct (Position_isBefore s e); injection Hnew as <-; simpl; lia.
Qed.

Lemma Range_new_total line :
  1 <= line ->
  exists r, Range_new (line - 1) 0 (line - 1) MAX_SAFE_INTEGER = Ok r.
Proof.
  intros Hline. unfold Range_new.
  rewrite !Position_new_total by (unfold MAX_SAFE_INTEGER; lia). simpl.
  destruct (Position_isBefore _ _); eauto.
Qed.

(** ** The detail synthesizer *)

Lemma collectBranch_ownLine branch m m' :
  branchesAtOwnLine m -> collectBranch branch m = Ok m' -> branchesAtOwnLine m'.
Proof.
  intros Hm Hrun. unfold collectBranch in Hrun.
  apply bind_Ok in Hrun as (position & Hposition & Hrun).
  apply Position_new_Ok in Hposition as (_ & Hline & _).
  injection Hrun as <-.
  set (line := LcovBranchDetail.line branch) in *.
  destruct (m !! line) as [bs0|] eqn:Hlookup.
  - rewrite Hlookup. intros l bs b Hl Hb.
    destruct (decide (l = line)) as [->|Hne].
    + rewrite lookup_insert_eq in Hl. injection Hl as <-.
      apply elem_of_app in Hb as [Hb|Hb]; [by eapply Hm|].
      apply list_elem_of_singleton in Hb as ->. done.
    + rewrite lookup_insert_ne in Hl by done. by eapply Hm.
  - rewrite lookup_insert_eq. intros l bs b Hl Hb.
    destruct (decide (l = line)) as [->|Hne].
    + rewrite lookup_insert_eq in Hl. injection Hl as <-.
      apply list_elem_of_singleton in Hb as ->. done.
    + rewrite !lookup_insert_ne in Hl by done. by eapply Hm.
Qed.

Lemma collectBranch_loop bds m :
  for_of collectBranch bds ∅ = Ok m -> branchesAtOwnLine m.
Proof.
  apply (for_of_invariant collectBranch (fun _ m => branchesAtOwnLine m)).
  - intros l bs b Hl. by rewrite lookup_empty in Hl.
  - intros visited x s1 s2 _. apply collectBranch_ownLine.
Qed.

(** What the loop over the function details has built after [visited]. *)
Lemma declareFunction_loop fds st :
  for_of declareFunction fds ([], ∅) = Ok st ->
  Forall (fun d => isDeclaration d /\ exists func, func ∈ fds /\
            0 < LcovFunctionDetail.line func /\
            detail_startLine d = LcovFunctionDetail.line func - 1) st.1 /\
  forall l, l ∈ st.2 <->
    exists func, func ∈ fds /\ LcovFunctionDetail.line func = l /\ 0 < l.
Proof.
  intros Hrun.
  pose (P := fun (visited : list LcovFunctionDetail.t)
                 (st : list FileCoverageDetail * gset Z) =>
    Forall (fun d => isDeclaration d /\ exists func, func ∈ fds /\
              0 < LcovFunctionDetail.line func /\
              detail_startLine d = LcovFunctionDetail.line func - 1) st.1 /\
    forall l, l ∈ st.2 <->
      exists func, func ∈ visited /\ LcovFunctionDetail.line func = l /\ 0 < l).
  apply (for_of_invariant declareFunction P) in Hrun; [exact Hrun | |].
  - split; [constructor|]. intros l. split; [set_solver|].
    intros (func & Hfunc & _). set_solver.
  - intros visited func [ds pl] st2 Hin [Hds Hpl] Hbody. unfold declareFunction in Hbody.
    simpl in *.
    destruct (Z.ltb_spec 0 (LcovFunctionDetail.line func)) as [Hpos|Hnonpos].
    + apply bind_Ok in Hbody as (range & Hrange & Hbody).
      apply Range_new_line in Hrange as [_ Hstart].
      injection Hbody as <-. split; simpl.
      * apply Forall_app. split; [done|].
        apply Forall_singleton. split; [done|]. exists func. done.
      * intros l. rewrite elem_of_union, elem_of_singleton, Hpl. split.
        -- intros [->|(f & Hf & Hl & Hl0)].
           ++ exists func. split; [apply elem_of_app; right; by apply list_elem_of_singleton | done].
           ++ exists f. split; [apply elem_of_app; by left | done].
        -- intros (f & Hf & Hl & Hl0).
           apply elem_of_app in Hf as [Hf|Hf]; [right; eauto|].
           apply list_elem_of_singleton in Hf as ->. by left.
    + injection Hbody as <-. split; simpl; [done|].
      intros l. rewrite Hpl. split.
      * intros (f & Hf & Hl & Hl0). exists f.
        split; [apply elem_of_app; by left | done].
      * intros (f & Hf & Hl & Hl0).
        apply elem_of_app in Hf as [Hf|Hf]; [eauto|].
        apply list_elem_of_singleton in Hf as ->. lia.
Qed.

(** What the loop over the line details appends to [details]. *)
Lemma coverLine_loop branchesByLine processedLines lds ds out :
  branchesAtOwnLine branchesByLine ->
  for_of (coverLine branchesByLine processedLines) lds ds = Ok out ->
  exists new, out = ds ++ new /\
    Forall (fun s => isStatement s /\ exists line, line ∈ lds /\
              (LcovLineDetail.line line ∉ processedLines) /\
              detail_startLine s = LcovLineDetail.line line - 1 /\
              forall b, b ∈ detail_branches s ->
                pos_line (bc_location b) = LcovLineDetail.line line - 1) new.
Proof.
  intros Hown Hrun.
  pose (P := fun (visited : list LcovLineDetail.t) (out : list FileCoverageDetail) =>
    exists new, out = ds ++ new /\
      Forall (fun s => isStatement s /\ exists line, line ∈ lds /\
                (LcovLineDetail.line line ∉ processedLines) /\
                detail_startLine s = LcovLineDetail.line line - 1 /\
                forall b, b ∈ detail_branches s ->
                  pos_line (bc_location b) = LcovLineDetail.line line - 1) new).
  apply (for_of_invariant _ P) in Hrun; [exact Hrun | |].
  - exists []. by rewrite app_nil_r.
  - intros visited line out1 out2 Hin (new & -> & Hnew) Hbody.
    unfold coverLine in Hbody. case_bool_decide as Hclaimed.
    { injection Hbody as <-. by exists new. }
    apply bind_Ok in Hbody as (range & Hrange & Hbody).
    apply Range_new_line in Hrange as [_ Hstart].
    assert (Hitem : forall executed bs,
      (forall b, b ∈ bs -> pos_line (bc_location b) = LcovLineDetail.line line - 1) ->
      P (visited ++ [line]) ((ds ++ new) ++ [StatementCoverage executed range bs])).
    { intros executed bs Hbs. exists (new ++ [StatementCoverage executed range bs]).
      split; [by rewrite app_assoc|].
      apply Forall_app. split; [done|]. apply Forall_singleton.
      split; [done|]. exists line. done. }
    destruct (0 <? length _)%nat; injection Hbody as <-; apply Hitem.
    + intros b Hb. destruct (branchesByLine !! LcovLineDetail.line line) eqn:Hl;
        simpl in Hb; [by eapply Hown | set_solver].
    + set_solver.
Qed.

Lemma branches_phase record m :
  match details (branches record) with
  | Some ((_ :: _) as bds) => for_of collectBranch bds ∅
  | _ => Ok ∅
  end = Ok m ->
  branchesAtOwnLine m.
Proof.
  destruct (details (branches record)) as [[|b bds]|]; intros Hrun;
    try (injection Hrun as <-; intros l bs x Hl; by rewrite lookup_empty in Hl).
  by eapply collectBranch_loop.
Qed.

Lemma functions_phase record st :
  match details (functions record) with
  | Some ((_ :: _) as fds) => for_of declareFunction fds ([], ∅)
  | _ => Ok ([], ∅)
  end = Ok st ->
  Forall (declarationOf record) st.1 /\ forall l, l ∈ st.2 <-> claimed record l.
Proof.
  unfold declarationOf, claimed, functionDetails.
  destruct (details (functions record)) as [[|f fds]|]; intros Hrun;
    try (injection Hrun as <-; simpl; split; [constructor|];
         intros l; split; [set_solver | intros (func & Hfunc & _); set_solver]).
  apply declareFunction_loop in Hrun as [Hds Hpl]. simpl. split; [|done].
  eapply Forall_impl; [exact Hds|]. simpl.
  intros d (Hd & func & Hfunc & Hpos & Hstart). split; [done|].
  exists (LcovFunctionDetail.line func). eauto.
Qed.

(** The output is the declarations of the claimed lines followed by the
    statements of the unclaimed line details. *)
Lemma synthesis_shape record out :
  loadDetailedCoverageForRecord record = Ok out ->
  exists decls stmts, out = decls ++ stmts /\
    Forall (declarationOf record) decls /\ Forall (statementOf record) stmts.
Proof.
  unfold loadDetailedCoverageForRecord. intros Hrun.
  destruct (details (lines record)) as [[|l lds]|] eqn:Hlines;
    try (injection Hrun as <-; exists [], []; by repeat constructor).
  apply bind_Ok in Hrun as (m & Hm & Hrun).
  apply bind_Ok in Hrun as ([ds pl] & Hst & Hrun).
  apply branches_phase in Hm.
  apply functions_phase in Hst as [Hds Hpl]. simpl in Hds, Hpl.
  apply (coverLine_loop m pl (l :: lds) ds) in Hrun as (new & -> & Hnew); [|done].
  exists ds, new. split; [done|]. split; [done|].
  eapply Forall_impl; [exact Hnew|]. simpl.
  intros s (Hs & line & Hline & Hfree & Hstart & Hmarks). split; [done|].
  exists line. unfold lineDetails. rewrite Hlines, <- Hpl. done.
Qed.

Lemma declaration_not_statement d : isDeclaration d -> isStatement d -> False.
Proof. by destruct d. Qed.

(** With line numbers from 1 on, as LCOV has them, synthesis returns. *)
Lemma loadDetailedCoverageForRecord_total record :
  (forall line, line ∈ lineDetails record -> 1 <= LcovLineDetail.line line) ->
  (forall branch, branch ∈ branchDetails record -> 1 <= LcovBranchDetail.line branch) ->
  exists out, loadDetailedCoverageForRecord record = Ok out.
Proof.
  unfold lineDetails, branchDetails, loadDetailedCoverageForRecord.
  intros Hlines Hbranches.
  destruct (details (lines record)) as [[|l lds]|]; eauto.
  assert (exists m,
    match details (branches record) with
    | Some ((_ :: _) as bds) => for_of collectBranch bds ∅
    | _ => Ok ∅
    end = Ok m) as [m ->].
  { destruct (details (branches record)) as [[|b bds]|]; eauto.
    apply for_of_total. intros x s1 Hx. unfold collectBranch.
    rewrite Position_new_total by (specialize (Hbranches x Hx); lia). simpl. eauto. }
  assert (exists st,
    match details (functions record) with
    | Some ((_ :: _) as fds) => for_of declareFunction fds ([], ∅)
    | _ => Ok ([], ∅)
    end = Ok st) as [st ->].
  { destruct (details (functions record)) as [[|f fds]|]; eauto.
    apply for_of_total. intros x s1 _. unfold declareFunction.
    destruct (Z.ltb_spec 0 (LcovFunctionDetail.line x)); eauto.
    destruct (Range_new_total (LcovFunctionDetail.line x)) as [r ->]; [lia|].
    simpl. eauto. }
  apply (for_of_total (coverLine m st.2) (l :: lds)). intros x s1 Hx.
  unfold coverLine. case_bool_decide; eauto.
  destruct (Range_new_total (LcovLineDetail.line x)) as [r ->]; [by apply Hlines|].
  simpl. destruct (0 <? length _)%nat; eauto.
Qed.

(** C5. In the output of the detail synthesizer every declaration item
    comes before every statement item, and no line carries both: no
    declaration and statement start on the same line, and a line named by
    a function detail with a positive line number has no statement item. *)
Theorem C5_declarations_first record out :
  loadDetailedCoverageForRecord record = Ok out ->
  (forall i j d s,
      out !! i = Some d -> out !! j = Some s ->
      isDeclaration d -> isStatement s -> (i < j)%nat) /\
  (forall d s,
      d ∈ out -> s ∈ out -> isDeclaration d -> isStatement s ->
      detail_startLine d <> detail_startLine s) /\
  (forall func s,
      func ∈ functionDetails record -> 0 < LcovFunctionDetail.line func ->
      s ∈ out -> isStatement s ->
      detail_startLine s <> LcovFunctionDetail.line func - 1).
Proof.
  intros Hrun.
  apply synthesis_shape in Hrun as (decls & stmts & -> & Hdecls & Hstmts).
  rewrite Forall_forall in Hdecls, Hstmts.
  assert (Hsplit : forall x, x ∈ decls ++ stmts ->
            (isDeclaration x -> declarationOf record x) /\
            (isStatement x -> statementOf record x)).
  { intros x Hx. apply elem_of_app in Hx as [Hx|Hx].
    - split; [by auto|]. intros Hs. destruct (Hdecls x Hx) as [Hd _].
      destruct (declaration_not_statement x Hd Hs).
    - split; [|by auto]. intros Hd. destruct (Hstmts x Hx) as [Hs _].
      destruct (declaration_not_statement x Hd Hs). }
  assert (Hline : forall s l, s ∈ decls ++ stmts -> isStatement s ->
            claimed record l -> detail_startLine s <> l - 1).
  { intros s l Hs Hstmt Hclaimed Heq.
    destruct (Hsplit s Hs) as [_ Hof].
    destruct (Hof Hstmt) as (_ & line & _ & Hfree & Hstart & _).
    apply Hfree. replace (LcovLineDetail.line line) with l by lia. done. }
  split; [|split].
  - intros i j d s Hi Hj Hd Hs.
    destruct (decide (i < length decls)%nat) as [Hlt|Hge].
    + destruct (decide (j < length decls)%nat) as [Hjlt|]; [|lia].
      rewrite lookup_app_l in Hj by done.
      apply list_elem_of_lookup_2 in Hj. destruct (Hdecls s Hj) as [Hsd _].
      destruct (declaration_not_statement s Hsd Hs).
    + rewrite lookup_app_r in Hi by lia.
      apply list_elem_of_lookup_2 in Hi. destruct (Hstmts d Hi) as [Hds _].
      destruct (declaration_not_statement d Hd Hds).
  - intros d s Hd Hs Hdecl Hstmt Heq.
    destruct (Hsplit d Hd) as [Hof _].
    destruct (Hof Hdecl) as (_ & l & Hclaimed & Hstart).
    apply (Hline s l Hs Hstmt Hclaimed). lia.
  - intros func s Hfunc Hpos Hs Hstmt.
    apply Hline; [done | done |]. exists func. done.
Qed.

(** C10. A branch detail on a line named by a function detail with a
    positive line number leaves no mark in the output: no item carries a
    branch mark positioned on that line. *)
Theorem C10_claimed_branches_dropped record out branch func :
  loadDetailedCoverageForRecord record = Ok out ->
  branch ∈ branchDetails record ->
  func ∈ functionDetails record ->
  LcovBranchDetail.line branch = LcovFunctionDetail.line func ->
  0 < LcovFunctionDetail.line func ->
  forall d b, d ∈ out -> b ∈ detail_branches d ->
    pos_line (bc_location b) <> LcovBranchDetail.line branch - 1.
Proof.
  intros Hrun _ Hfunc Hsame Hpos d b Hd Hb Heq.
  apply synthesis_shape in Hrun as (decls & stmts & -> & Hdecls & Hstmts).
  rewrite Forall_forall in Hdecls, Hstmts.
  apply elem_of_app in Hd as [Hd|Hd].
  - destruct (Hdecls d Hd) as [Hdecl _]. destruct d; [done|]. simpl in Hb.
    by apply elem_of_nil in Hb.
  - destruct (Hstmts d Hd) as (_ & line & _ & Hfree & _ & Hmarks).
    apply Hfree. exists func. split; [done|].
    specialize (Hmarks b Hb). split; lia.
Qed.

Lemma C5_declarations_first_witness :
  loadDetailedCoverageForRecord sampleRecord = Ok sampleDetails /\
  (forall i j d s,
      sampleDetails !! i = Some d -> sampleDetails !! j = Some s ->
      isDeclaration d -> isStatement s -> (i < j)%nat) /\
  (forall d s,
      d ∈ sampleDetails -> s ∈ sampleDetails -> isDeclaration d -> isStatement s ->
      detail_startLine d <> detail_startLine s) /\
  (forall func s,
      func ∈ functionDetails sampleRecord -> 0 < LcovFunctionDetail.line func ->
      s ∈ sampleDetails -> isStatement s ->
      detail_startLine s <> LcovFunctionDetail.line func - 1).
Proof.
  split; [reflexivity|].
  apply (C5_declarations_first sampleRecord sampleDetails). reflexivity.
Defined.

Lemma C10_claimed_branches_dropped_witness :
  loadDetailedCoverageForRecord sampleRecord = Ok sampleDetails /\
  (forall d b, d ∈ sampleDetails -> b ∈ detail_branches d ->
     pos_line (bc_location b) <> 3 - 1).
Proof.
  split; [reflexivity|].
  apply (C10_claimed_branches_dropped sampleRecord sampleDetails
           {| LcovBranchDetail.line := 3; LcovBranchDetail.block := 0;
              LcovBranchDetail.branch := 0; LcovBranchDetail.taken := 1 |}
           {| LcovFunctionDetail.name := "f"; LcovFunctionDetail.line := 3;
              LcovFunctionDetail.hit := 1 |}).
  - reflexivity.
  - unfold branchDetails, sampleRecord. simpl. apply list_elem_of_here.
  - unfold functionDetails, sampleRecord. simpl. apply list_elem_of_here.
  - reflexivity.
  - simpl. lia.
Defined.

(** C6. A record whose line details are [{line: 5, hit: 3}], whose branch
    details are the two branches [0:0] (not taken) and [0:1] (taken twice)
    of line 5, and which has no function details, synthesizes to exactly
    one statement item, for line 5, with executed count 3 and the two
    marks, the first not executed and the second executed. *)
Theorem C6_round_trip record :
  details (lines record) =
    Some [ {| LcovLineDetail.line := 5; LcovLineDetail.hit := 3 |} ] ->
  details (branches record) =
    Some [ {| LcovBranchDetail.line := 5; LcovBranchDetail.block := 0;
              LcovBranchDetail.branch := 0; LcovBranchDetail.taken := 0 |};
           {| LcovBranchDetail.line := 5; LcovBranchDetail.block := 0;
              LcovBranchDetail.branch := 1; LcovBranchDetail.taken := 2 |} ] ->
  details (functions record) = None \/ details (functions record) = Some [] ->
  loadDetailedCoverageForRecord record =
    Ok [ StatementCoverage (ExecutedCount 3)
           {| range_start := {| pos_line := 4; pos_character := 0 |};
              range_end := {| pos_line := 4; pos_character := MAX_SAFE_INTEGER |} |}
           [ {| bc_executed := ExecutedFlag false;
                bc_location := {| pos_line := 4; pos_character := 0 |};
                bc_label := "Branch 0:0 not taken" |};
             {| bc_executed := ExecutedFlag true;
                bc_location := {| pos_line := 4; pos_character := 0 |};
                bc_label := "Branch 0:1 taken" |} ] ].
Proof.
  intros Hlines Hbranches Hfunctions. unfold loadDetailedCoverageForRecord.
  rewrite Hlines, Hbranches.
  destruct Hfunctions as [-> | ->]; reflexivity.
Qed.

Lemma C6_round_trip_witness :
  loadDetailedCoverageForRecord roundTripRecord = Ok roundTripDetails.
Proof.
  apply (C6_round_trip roundTripRecord); [reflexivity | reflexivity | by left].
Defined.

(** ** The record store *)

Lemma JsMap_get_set_eq {V} (k : string) (v : V) (m : JsMap.t V) :
  JsMap.get k (JsMap.set k v m) = Some v.
Proof.
  induction m as [|[k' v'] m IH]; simpl.
  - by rewrite String.eqb_refl.
  - destruct (String.eqb_spec k k') as [->|Hne]; simpl.
    + by rewrite String.eqb_refl.
    + destruct (String.eqb_spec k k'); [done | exact IH].
Qed.

Lemma JsMap_get_set_ne {V} (k k' : string) (v : V) (m : JsMap.t V) :
  k <> k' -> JsMap.get k' (JsMap.set k v m) = JsMap.get k' m.
Proof.
  intros Hne. induction m as [|[k0 v0] m IH]; simpl.
  - destruct (String.eqb_spec k' k); [congruence | done].
  - destruct (String.eqb_spec k k0) as [->|Hk]; simpl.
    + destruct (String.eqb_spec k' k0); [congruence | done].
    + destruct (String.eqb_spec k' k0); [done | exact IH].
Qed.

Section ParserProperties.
Context {platform : Platform}.

(** *** Path resolution *)

Lemma cacheConsistent_empty : cacheConsistent ∅.
Proof. intros p b Hp. by rewrite lookup_empty in Hp. Qed.

Lemma cachedExists_spec p cache :
  cacheConsistent cache ->
  (cachedExists p cache).1 = fs_existsSync p /\
  cacheConsistent (cachedExists p cache).2.
Proof.
  intros Hcache. unfold cachedExists.
  destruct (cache !! p) as [b|] eqn:Hp; simpl.
  - rewrite Hp. simpl. split; [by apply Hcache | done].
  - rewrite lookup_insert_eq. simpl. split; [done|].
    intros q b Hq. destruct (decide (p = q)) as [->|Hne].
    + rewrite lookup_insert_eq in Hq. congruence.
    + rewrite lookup_insert_ne in Hq by done. by apply Hcache.
Qed.

Lemma probeCommonDirs_spec workspaceFolder fileName dirs cache :
  cacheConsistent cache ->
  (probeCommonDirs workspaceFolder fileName dirs cache).1 =
    List.find fs_existsSync
      (map (fun dir => path_join [workspaceFolder; dir; fileName]) dirs) /\
  cacheConsistent (probeCommonDirs workspaceFolder fileName dirs cache).2.
Proof.
  revert cache.
  induction dirs as [|dir dirs IH]; intros cache Hcache;
    cbn [probeCommonDirs map List.find]; [done|].
  destruct (cachedExists_spec (path_join [workspaceFolder; dir; fileName]) cache Hcache)
    as [Hfound Hcache'].
  destruct (cachedExists _ cache) as [found cache']. simpl in Hfound, Hcache'.
  rewrite <- Hfound. destruct found; [by split|]. by apply IH.
Qed.

(** The resolution of the source is the ladder of the specification, and
    it keeps the cache consistent. *)
Lemma resolveFilePath_spec workspaceFolder recordFile cache :
  cacheConsistent cache ->
  (resolveFilePath workspaceFolder recordFile cache).1 =
    resolve_spec workspaceFolder recordFile /\
  cacheConsistent (resolveFilePath workspaceFolder recordFile cache).2.
Proof.
  intros Hcache. unfold resolveFilePath, resolve_spec.
  assert (Hstep1 : exists fileExists cache1,
    (if path_isAbsolute recordFile then cachedExists recordFile cache
     else (false, cache)) = (fileExists, cache1) /\
    fileExists = path_isAbsolute recordFile && fs_existsSync recordFile /\
    cacheConsistent cache1).
  { destruct (path_isAbsolute recordFile); cbn [andb]; [|by eauto].
    destruct (cachedExists_spec recordFile cache Hcache) as [Hfound Hcache'].
    destruct (cachedExists recordFile cache) as [found cache']. eauto. }
  destruct Hstep1 as (fileExists & cache1 & -> & -> & Hcache1).
  destruct (path_isAbsolute recordFile && fs_existsSync recordFile);
    cbn [negb fst snd]; [by split|].
  destruct (cachedExists_spec (path_join [workspaceFolder; recordFile]) cache1 Hcache1)
    as [Hfound Hcache2].
  destruct (cachedExists _ cache1) as [found cache2]. simpl in Hfound, Hcache2.
  rewrite <- Hfound. destruct found; cbn [negb fst snd]; [by split|].
  by apply probeCommonDirs_spec.
Qed.

Lemma identityOf_spec workspaceFolder record :
  identityOf workspaceFolder record =
    (fun p => uri_toString (Uri_file p)) <$> resolve_spec workspaceFolder (file record).
Proof.
  unfold identityOf.
  by destruct (resolveFilePath_spec workspaceFolder (file record) ∅
                 cacheConsistent_empty) as [-> _].
Qed.

(** What one turn of the loop does to the cache and to the record map. *)
Lemma convertRecord_store workspaceFolder record result cache parser :
  (convertRecord workspaceFolder record (result, cache, parser)).1.2 =
    (resolveFilePath workspaceFolder (file record) cache).2 /\
  fileRecordMap (convertRecord workspaceFolder record (result, cache, parser)).2 =
    match (resolveFilePath workspaceFolder (file record) cache).1 with
    | Some resolved =>
        JsMap.set (uri_toString (Uri_file resolved)) record (fileRecordMap parser)
    | None => fileRecordMap parser
    end.
Proof.
  unfold convertRecord.
  destruct (resolveFilePath workspaceFolder (file record) cache) as [[resolved|] cache'];
    simpl; [|done].
  by destruct (FileCoverage_validate _ _ _).
Qed.

(** C4. For every reported path and workspace root the resolver takes the
    first of: the path itself if absolute and existing; the path joined
    onto the workspace root if that exists; the first existing probe of
    the base filename under [src], [lib], [app], [components], in that
    order. A record for which all fail is dropped: nothing is stored and
    no coverage object is produced; otherwise the record is stored under
    the URI of the resolved path. *)
Theorem C4_resolution_ladder workspaceFolder record result cache parser :
  cacheConsistent cache ->
  (resolveFilePath workspaceFolder (file record) cache).1 =
    resolve_spec workspaceFolder (file record) /\
  cacheConsistent (convertRecord workspaceFolder record (result, cache, parser)).1.2 /\
  match resolve_spec workspaceFolder (file record) with
  | Some resolved =>
      JsMap.get (uri_toString (Uri_file resolved))
        (fileRecordMap
           (convertRecord workspaceFolder record (result, cache, parser)).2) =
        Some record
  | None =>
      (convertRecord workspaceFolder record (result, cache, parser)).1.1 = result /\
      (convertRecord workspaceFolder record (result, cache, parser)).2 = parser
  end.
Proof.
  intros Hcache.
  destruct (resolveFilePath_spec workspaceFolder (file record) cache Hcache)
    as [Hresolve Hcache'].
  destruct (convertRecord_store workspaceFolder record result cache parser)
    as [Hstcache Hstmap].
  split; [done|]. split; [by rewrite Hstcache|].
  rewrite <- Hresolve.
  destruct (resolveFilePath workspaceFolder (file record) cache) as [[resolved|] cache1]
    eqn:Hrun; simpl in *.
  - rewrite Hstmap. apply JsMap_get_set_eq.
  - unfold convertRecord. by rewrite Hrun.
Qed.

(** *** Duplicate identities *)

Lemma convert_fold_consistent workspaceFolder records (st : ConvertState) :
  cacheConsistent st.1.2 ->
  cacheConsistent
    (fold_left (fun st record => convertRecord workspaceFolder record st) records st).1.2.
Proof.
  revert st. induction records as [|record records IH]; intros st Hcache; [done|].
  simpl. apply IH. destruct st as [[result cache] parser].
  destruct (convertRecord_store workspaceFolder record result cache parser) as [-> _].
  by apply resolveFilePath_spec.
Qed.

(** Records of other identities leave the entry of [k] alone. *)
Lemma convert_fold_untouched workspaceFolder k records (st : ConvertState) :
  cacheConsistent st.1.2 ->
  Forall (fun record => identityOf workspaceFolder record <> Some k) records ->
  JsMap.get k
    (fileRecordMap
       (fold_left (fun st record => convertRecord workspaceFolder record st)
          records st).2) =
  JsMap.get k (fileRecordMap st.2).
Proof.
  revert st. induction records as [|record records IH]; intros st Hcache Hother; [done|].
  apply Forall_cons in Hother as [Hrecord Hother]. simpl.
  rewrite IH; [| | done].
  - destruct st as [[result cache] parser].
    destruct (convertRecord_store workspaceFolder record result cache parser)
      as [_ ->].
    rewrite identityOf_spec in Hrecord.
    destruct (resolveFilePath_spec workspaceFolder (file record) cache Hcache)
      as [-> _].
    destruct (resolve_spec workspaceFolder (file record)) as [resolved|]; [|done].
    simpl in Hrecord. apply JsMap_get_set_ne. congruence.
  - apply (convert_fold_consistent workspaceFolder [record] st Hcache).
Qed.

Lemma getFileRecord_hit uri parser record :
  JsMap.get (uri_toString uri) (fileRecordMap parser) = Some record ->
  getFileRecord uri parser = (Some record, parser).
Proof. intros Hget. unfold getFileRecord. by rewrite Hget. Qed.

(** A lookup never changes an entry that is present. *)
Lemma getFileRecord_preserves uri parser k record :
  JsMap.get k (fileRecordMap parser) = Some record ->
  JsMap.get k (fileRecordMap (getFileRecord uri parser).2) = Some record.
Proof.
  intros Hk. unfold getFileRecord.
  destruct (JsMap.get (uri_toString uri) (fileRecordMap parser)) eqn:Hexact; [done|].
  destruct (findByPath _ _); [|done]. simpl.
  rewrite JsMap_get_set_ne; [done | congruence].
Qed.

Lemma probeAll_preserves probes parser k record :
  JsMap.get k (fileRecordMap parser) = Some record ->
  JsMap.get k (fileRecordMap (probeAll probes parser)) = Some record.
Proof.
  revert parser. induction probes as [|uri probes IH]; intros parser Hk; [done|].
  simpl. apply IH. by apply getFileRecord_preserves.
Qed.

(** C9. When two records of one load resolve to the same identity, the
    later one overwrites the earlier one in the record store: after the
    load, and after any further lookups, a lookup by that identity returns
    the last record stored under it. *)
Theorem C9_last_write_wins workspaceFolder parser before first between second after
    k probes uri :
  identityOf workspaceFolder first = Some k ->
  identityOf workspaceFolder second = Some k ->
  Forall (fun record => identityOf workspaceFolder record <> Some k) after ->
  uri_toString uri = k ->
  (getFileRecord uri
     (probeAll probes
        (convertToFileCoverage
           (before ++ first :: between ++ second :: after) workspaceFolder parser).2)).1
  = Some second.
Proof.
  intros _ Hsecond Hafter Huri.
  erewrite getFileRecord_hit; [done|].
  apply probeAll_preserves. rewrite Huri.
  unfold convertToFileCoverage. cbn [snd].
  replace (before ++ first :: between ++ second :: after)
    with ((before ++ first :: between) ++ [second] ++ after)
    by (by rewrite <- app_assoc).
  rewrite !fold_left_app.
  set (st0 := fold_left _ (first :: between) _).
  assert (Hcache0 : cacheConsistent st0.1.2).
  { do 2 apply convert_fold_consistent. apply cacheConsistent_empty. }
  rewrite convert_fold_untouched; [| | done].
  - simpl. destruct st0 as [[result cache] parser0].
    destruct (convertRecord_store workspaceFolder second result cache parser0)
      as [_ ->].
    rewrite identityOf_spec in Hsecond.
    destruct (resolveFilePath_spec workspaceFolder (file second) cache Hcache0)
      as [-> _].
    destruct (resolve_spec workspaceFolder (file second)) as [resolved|]; [|done].
    simpl in Hsecond. injection Hsecond as <-. apply JsMap_get_set_eq.
  - apply (convert_fold_consistent workspaceFolder [second] st0 Hcache0).
Qed.

End ParserProperties.

Lemma C4_resolution_ladder_witness :
  cacheConsistent (platform := utilWorkspace) ∅ /\
  (resolveFilePath (platform := utilWorkspace) "/ws" "src/util.ts" ∅).1 =
    Some "/ws/src/util.ts" /\
  JsMap.get "file:///ws/src/util.ts"
    (fileRecordMap
       (convertRecord (platform := utilWorkspace) "/ws" srcRecord
          ([], ∅, newLcovParser)).2) = Some srcRecord.
Proof.
  split; [exact (cacheConsistent_empty (platform := utilWorkspace))|].
  pose proof (C4_resolution_ladder (platform := utilWorkspace) "/ws" srcRecord []
                ∅ newLcovParser (cacheConsistent_empty (platform := utilWorkspace)))
    as (Hresolve & _ & Hstored).
  split; [exact Hresolve | exact Hstored].
Defined.

Lemma C9_last_write_wins_witness :
  (getFileRecord (platform := utilWorkspace) (Posix.file_uri "/ws/src/util.ts")
     (probeAll (platform := utilWorkspace) [movedProbe]
        (convertToFileCoverage (platform := utilWorkspace)
           ([] ++ srcRecord :: [libRecord] ++ srcRecordAgain :: []) "/ws"
           newLcovParser).2)).1
  = Some srcRecordAgain.
Proof.
  apply (C9_last_write_wins (platform := utilWorkspace) "/ws" newLcovParser []
           srcRecord [libRecord] srcRecordAgain [] "file:///ws/src/util.ts"
           [movedProbe] (Posix.file_uri "/ws/src/util.ts")).
  - reflexivity.
  - reflexivity.
  - constructor.
  - reflexivity.
Defined.

Section LookupProperties.
Context {platform : Platform}.

(** *** Fallback lookup *)

Lemma findByPath_Some filePath (entries : list (string * LcovFileRecord)) value :
  findByPath filePath entries = Some value ->
  exists pre key post,
    entries = pre ++ (key, value) :: post /\
    Forall (fun entry => matchesAny filePath entry.2 = false) pre /\
    matchesAny filePath value = true.
Proof.
  induction entries as [|[key v] rest IH]; simpl; [discriminate|].
  intros Hfind.
  destruct (matchesAny filePath v) eqn:Hany.
  - assert (value = v) as ->.
    { unfold matchesAny in Hany.
      destruct (matchesDirect filePath v); [congruence|].
      destruct (matchesSuffix filePath v); [congruence|].
      destruct (matchesNormalizedSuffix filePath v); [congruence|].
      destruct (matchesFileName filePath v); [congruence | discriminate]. }
    exists [], key, rest. by repeat split.
  - unfold matchesAny in Hany.
    apply orb_false_elim in Hany as [Hany Hname].
    apply orb_false_elim in Hany as [Hany Hnormalized].
    apply orb_false_elim in Hany as [Hdirect Hsuffix].
    rewrite Hdirect, Hsuffix, Hnormalized, Hname in Hfind.
    destruct (IH Hfind) as (pre & key' & post & -> & Hpre & Hvalue).
    exists ((key, v) :: pre), key', post. split; [done|]. split; [|done].
    constructor; [|done]. simpl. unfold matchesAny.
    by rewrite Hdirect, Hsuffix, Hnormalized, Hname.
Qed.

Lemma findByPath_None filePath (entries : list (string * LcovFileRecord)) :
  findByPath filePath entries = None ->
  Forall (fun entry => matchesAny filePath entry.2 = false) entries.
Proof.
  induction entries as [|[key v] rest IH]; simpl; [constructor|].
  destruct (matchesDirect filePath v) eqn:Hdirect; [discriminate|].
  destruct (matchesSuffix filePath v) eqn:Hsuffix; [discriminate|].
  destruct (matchesNormalizedSuffix filePath v) eqn:Hnormalized; [discriminate|].
  destruct (matchesFileName filePath v) eqn:Hname; [discriminate|].
  intros Hfind. constructor; [|by apply IH]. simpl. unfold matchesAny.
  by rewrite Hdirect, Hsuffix, Hnormalized, Hname.
Qed.

(** C2 (as the code has it). When the exact lookup misses, the stored
    records are scanned once, in insertion order, and the first record
    that passes any of the tests (equal path, suffix, suffix after
    separator normalisation, equal file name) is returned and memoized
    under the probe identity; the order of the tests ranks the tests on
    one record, not the records. With no such record the lookup misses
    and the store is unchanged. *)
Theorem C2_first_matching_record uri parser :
  JsMap.get (uri_toString uri) (fileRecordMap parser) = None ->
  match (getFileRecord uri parser).1 with
  | Some value =>
      (exists pre key post,
          fileRecordMap parser = pre ++ (key, value) :: post /\
          Forall (fun entry => matchesAny (uri_fsPath uri) entry.2 = false) pre /\
          matchesAny (uri_fsPath uri) value = true) /\
      fileRecordMap (getFileRecord uri parser).2 =
        JsMap.set (uri_toString uri) value (fileRecordMap parser)
  | None =>
      Forall (fun entry => matchesAny (uri_fsPath uri) entry.2 = false)
        (fileRecordMap parser) /\
      (getFileRecord uri parser).2 = parser
  end.
Proof.
  intros Hmiss. unfold getFileRecord. rewrite Hmiss.
  destruct (findByPath (uri_fsPath uri) (JsMap.entries (fileRecordMap parser)))
    as [value|] eqn:Hfind; simpl.
  - split; [|done]. by apply findByPath_Some.
  - split; [|done]. by apply findByPath_None.
Qed.

(** *** Detail requests *)

Lemma loadDetailedCoverage_lookup uri parser :
  loadDetailedCoverage uri parser =
    (match (getFileRecord uri parser).1 with
     | Some record => try_catch (loadDetailedCoverageForRecord record) (fun _ => [])
     | None => []
     end, (getFileRecord uri parser).2).
Proof.
  unfold loadDetailedCoverage.
  destruct (JsMap.get (uri_toString uri) (fileRecordMap parser)) as [record|] eqn:Hget.
  - by rewrite (getFileRecord_hit uri parser record Hget).
  - by destruct (getFileRecord uri parser) as [[record|] parser'].
Qed.

Lemma noLineDetails_empty record :
  noLineDetails record -> loadDetailedCoverageForRecord record = Ok [].
Proof.
  unfold loadDetailedCoverageForRecord. by intros [-> | ->].
Qed.

(** C7. A detail request on missing data answers with the empty sequence
    and no exception: synthesis of a record without line details returns
    [[]]; [loadDetailedCoverage] returns [[]] when the lookup misses or
    finds such a record; the [profile.loadDetailedCoverage] callback
    returns [[]] when both the handle lookup and the identity lookup miss,
    or when the record found has no line details. *)
Theorem C7_no_detail_is_empty :
  (forall record,
      noLineDetails record -> loadDetailedCoverageForRecord record = Ok []) /\
  (forall uri parser,
      (getFileRecord uri parser).1 = None ->
      (loadDetailedCoverage uri parser).1 = []) /\
  (forall uri parser record,
      (getFileRecord uri parser).1 = Some record -> noLineDetails record ->
      (loadDetailedCoverage uri parser).1 = []) /\
  (forall fileCoverage svc,
      fileCoverageRecordMap svc !! fc_id fileCoverage = None ->
      (getFileRecord (fc_uri fileCoverage) (parser svc)).1 = None ->
      (profile_loadDetailedCoverage fileCoverage svc).1 = []) /\
  (forall fileCoverage svc record,
      fileCoverageRecordMap svc !! fc_id fileCoverage = Some record \/
      (fileCoverageRecordMap svc !! fc_id fileCoverage = None /\
       (getFileRecord (fc_uri fileCoverage) (parser svc)).1 = Some record) ->
      noLineDetails record ->
      (profile_loadDetailedCoverage fileCoverage svc).1 = []).
Proof.
  split; [exact noLineDetails_empty|]. split; [|split; [|split]].
  - intros uri parser Hmiss. by rewrite loadDetailedCoverage_lookup, Hmiss.
  - intros uri parser record Hhit Hnone.
    by rewrite loadDetailedCoverage_lookup, Hhit, noLineDetails_empty.
  - intros fileCoverage svc Hhandle Hidentity. unfold profile_loadDetailedCoverage.
    destruct (_ || _); [|done]. rewrite Hhandle.
    destruct (getFileRecord _ _) as [record parser']. simpl in Hidentity.
    by subst record.
  - intros fileCoverage svc record Hfound Hnone. unfold profile_loadDetailedCoverage.
    destruct (_ || _); [|done].
    destruct Hfound as [-> | [-> Hidentity]].
    + by rewrite noLineDetails_empty.
    + destruct (getFileRecord _ _) as [found parser']. simpl in Hidentity.
      subst found. by rewrite noLineDetails_empty.
Qed.

(** C8. When the LCOV file is missing or [lcov-parse] fails on it, [parse]
    shows one error message and returns no record; its result carries no
    exception. *)
Theorem C8_parse_failure_is_empty lcovFilePath :
  (fs_existsSync lcovFilePath = false ->
   parse lcovFilePath =
     ([], [ShowErrorMessage
             ("Error parsing LCOV file: "
              +:+ ("LCOV file not found: " +:+ lcovFilePath))])) /\
  (forall message,
      fs_existsSync lcovFilePath = true ->
      parseLcov lcovFilePath = Throw message ->
      parse lcovFilePath =
        ([], [ShowErrorMessage ("Error parsing LCOV file: " +:+ message)])).
Proof.
  unfold parse. split.
  - by intros ->.
  - by intros message -> ->.
Qed.
End LookupProperties.

Lemma C2_first_matching_record_witness :
  JsMap.get (uri_toString movedProbe) (fileRecordMap utilStore) = None /\
  (exists pre key post,
      fileRecordMap utilStore = pre ++ (key, libRecord) :: post /\
      Forall (fun entry =>
                matchesAny (platform := utilWorkspace) (uri_fsPath movedProbe)
                  entry.2 = false) pre /\
      matchesAny (platform := utilWorkspace) (uri_fsPath movedProbe) libRecord = true) /\
  fileRecordMap (getFileRecord (platform := utilWorkspace) movedProbe utilStore).2 =
    JsMap.set (uri_toString movedProbe) libRecord (fileRecordMap utilStore).
Proof.
  split; [reflexivity|].
  apply (C2_first_matching_record (platform := utilWorkspace) movedProbe utilStore).
  reflexivity.
Defined.

(** C2 fails as a ranking of the records. The store holds [lib/util.ts]
    and then [src/util.ts]; the probe [/mnt/ws/src/util.ts] misses the exact
    lookup and has [src/util.ts] as a suffix, yet the lookup returns the
    record of [lib/util.ts], which matches by file name only. *)
Lemma C2_global_priority_counterexample :
  fileRecordMap utilStore =
    [("file:///ws/lib/util.ts", libRecord); ("file:///ws/src/util.ts", srcRecord)] /\
  JsMap.get (uri_toString movedProbe) (fileRecordMap utilStore) = None /\
  matchesSuffix (uri_fsPath movedProbe) srcRecord = true /\
  (getFileRecord (platform := utilWorkspace) movedProbe utilStore).1 = Some libRecord /\
  matchesDirect (uri_fsPath movedProbe) libRecord = false /\
  matchesSuffix (uri_fsPath movedProbe) libRecord = false /\
  matchesNormalizedSuffix (uri_fsPath movedProbe) libRecord = false /\
  matchesFileName (platform := utilWorkspace) (uri_fsPath movedProbe) libRecord = true.
Proof. repeat split; reflexivity. Qed.

Lemma C7_no_detail_is_empty_witness :
  loadDetailedCoverageForRecord summaryOnlyRecord = Ok [] /\
  (loadDetailedCoverage (platform := utilWorkspace)
     (Posix.file_uri "/elsewhere/main.ts") utilStore).1 = [] /\
  (loadDetailedCoverage (platform := utilWorkspace)
     (Posix.file_uri "/ws/src/util.ts") utilStore).1 = [].
Proof.
  destruct (C7_no_detail_is_empty (platform := utilWorkspace))
    as (Hrecord & Hmiss & Hsummary & _).
  split; [apply Hrecord; by left|].
  split; [apply Hmiss; reflexivity|].
  apply (Hsummary (Posix.file_uri "/ws/src/util.ts") utilStore srcRecord);
    [reflexivity | by left].
Defined.

Lemma C8_parse_failure_is_empty_witness :
  parse (platform := utilWorkspace) "/ws/coverage/none.info" =
    ([], [ShowErrorMessage
            "Error parsing LCOV file: LCOV file not found: /ws/coverage/none.info"]) /\
  parse (platform := utilWorkspace) "/ws/src/util.ts" =
    ([], [ShowErrorMessage "Error parsing LCOV file: Failed to parse string"]).
Proof.
  split.
  - apply (proj1 (C8_parse_failure_is_empty (platform := utilWorkspace)
                    "/ws/coverage/none.info")).
    reflexivity.
  - apply (proj2 (C8_parse_failure_is_empty (platform := utilWorkspace)
                    "/ws/src/util.ts") "Failed to parse string");
      reflexivity.
Defined.

(** ** The aggregator *)

Lemma sumZ_app (l1 l2 : list Z) : sumZ (l1 ++ l2) = sumZ l1 + sumZ l2.
Proof. unfold sumZ. induction l1 as [|x l1 IH]; simpl; lia. Qed.

Section ServiceProperties.
Context {platform : Platform}.

Lemma sums_fold (records : list LcovFileRecord) (acc : number * number) :
  fold_left
    (fun (acc : number * number) record =>
       (acc.1 + found (lines record), acc.2 + hit (lines record)))
    records acc =
  (acc.1 + sumZ (map (fun record => found (lines record)) records),
   acc.2 + sumZ (map (fun record => hit (lines record)) records)).
Proof.
  revert acc. induction records as [|record records IH]; intros [t c]; simpl.
  - f_equal; lia.
  - rewrite IH. simpl. f_equal; lia.
Qed.

Lemma calculateCoverageStats_sums records :
  totalLines (calculateCoverageStats records) =
    sumZ (map (fun record => found (lines record)) records) /\
  coveredLines (calculateCoverageStats records) =
    sumZ (map (fun record => hit (lines record)) records).
Proof. unfold calculateCoverageStats. rewrite sums_fold. simpl. done. Qed.

(** C1 (as the code has it). The totals are the sums of [lines.found] and
    [lines.hit] over all the records of the report, taken before any path
    is resolved: whether a record's path resolves plays no part, and the
    statistics a load shows are those of everything [parse] returned. *)
Theorem C1_totals_over_parsed_records :
  (forall records,
      totalLines (calculateCoverageStats records) =
        sumZ (map (fun record => found (lines record)) records) /\
      coveredLines (calculateCoverageStats records) =
        sumZ (map (fun record => hit (lines record)) records)) /\
  (forall lcovFilePath workspaceFolder token svc stats,
      shownStats (loadCoverage lcovFilePath workspaceFolder token svc).1 = Some stats ->
      stats = calculateCoverageStats (parse lcovFilePath).1).
Proof.
  split; [exact calculateCoverageStats_sums|].
  intros lcovFilePath workspaceFolder token svc stats. unfold loadCoverage.
  destruct workspaceFolder as [workspaceFolder|]; [|discriminate].
  destruct (parse lcovFilePath) as [records messages]. simpl.
  destruct (token 0%nat); [discriminate|].
  destruct (length records =? 0)%nat; [discriminate|].
  destruct (token 1%nat); [discriminate|].
  destruct (token 2%nat); [simpl; congruence|].
  destruct (processCoverageFiles _ _ _ _ _). simpl. congruence.
Qed.

(** C3 (as the code has it). A record with [lines.found = 0] adds nothing
    to [totalLines] and adds its [lines.hit] to [coveredLines]. *)
Theorem C3_zero_found_adds_hit before record after :
  found (lines record) = 0 ->
  totalLines (calculateCoverageStats (before ++ record :: after)) =
    totalLines (calculateCoverageStats (before ++ after)) /\
  coveredLines (calculateCoverageStats (before ++ record :: after)) =
    coveredLines (calculateCoverageStats (before ++ after)) + hit (lines record).
Proof.
  intros Hfound.
  destruct (calculateCoverageStats_sums (before ++ record :: after)) as [-> ->].
  destruct (calculateCoverageStats_sums (before ++ after)) as [-> ->].
  rewrite !map_app, !sumZ_app. simpl. lia.
Qed.
End ServiceProperties.

Lemma C1_totals_over_parsed_records_witness :
  shownStats
    (loadCoverage (platform := missingWorkspace) "/ws/coverage/lcov.info" (Some "/ws")
       neverCancelled newCoverageService).1 =
    Some {| totalLines := 10; coveredLines := 7; coveragePercentage := "70.00" |} /\
  {| totalLines := 10; coveredLines := 7; coveragePercentage := "70.00" |} =
    calculateCoverageStats (platform := missingWorkspace)
      (parse (platform := missingWorkspace) "/ws/coverage/lcov.info").1.
Proof.
  split; [reflexivity|].
  apply (proj2 (C1_totals_over_parsed_records (platform := missingWorkspace))
           "/ws/coverage/lcov.info" (Some "/ws") neverCancelled newCoverageService).
  reflexivity.
Defined.

(** C1 fails as stated. The only record of the report names a file that
    exists nowhere: it is not resolved, not stored and yields no coverage
    object, yet the load shows 10 total and 7 covered lines, where the sums
    over the resolved records are 0 and 0. *)
Lemma C1_unresolved_record_counted :
  parse (platform := missingWorkspace) "/ws/coverage/lcov.info" = ([missingRecord], []) /\
  identityOf (platform := missingWorkspace) "/ws" missingRecord = None /\
  fileRecordMap
    (parser
       (loadCoverage (platform := missingWorkspace) "/ws/coverage/lcov.info"
          (Some "/ws") neverCancelled newCoverageService).2) = [] /\
  addedCoverage
    (loadCoverage (platform := missingWorkspace) "/ws/coverage/lcov.info"
       (Some "/ws") neverCancelled newCoverageService).1 = [] /\
  totalLines <$>
    shownStats
      (loadCoverage (platform := missingWorkspace) "/ws/coverage/lcov.info"
         (Some "/ws") neverCancelled newCoverageService).1 = Some 10 /\
  coveredLines <$>
    shownStats
      (loadCoverage (platform := missingWorkspace) "/ws/coverage/lcov.info"
         (Some "/ws") neverCancelled newCoverageService).1 = Some 7.
Proof. repeat split; reflexivity. Qed.

Lemma C3_zero_found_adds_hit_witness :
  totalLines (calculateCoverageStats (platform := utilWorkspace)
                ([libRecord] ++ zeroFoundRecord :: [srcRecord])) =
    totalLines (calculateCoverageStats (platform := utilWorkspace)
                  ([libRecord] ++ [srcRecord])) /\
  coveredLines (calculateCoverageStats (platform := utilWorkspace)
                  ([libRecord] ++ zeroFoundRecord :: [srcRecord])) =
    coveredLines (calculateCoverageStats (platform := utilWorkspace)
                    ([libRecord] ++ [srcRecord])) + 5.
Proof.
  apply (C3_zero_found_adds_hit (platform := utilWorkspace) [libRecord]
           zeroFoundRecord [srcRecord]).
  reflexivity.
Defined.

(** C3 fails as stated. A record with [lines.found = 0] and [lines.hit = 5]
    raises [coveredLines] from 0 to 5. *)
Lemma C3_zero_found_counterexample :
  found (lines zeroFoundRecord) = 0 /\
  coveredLines (calculateCoverageStats (platform := utilWorkspace) []) = 0 /\
  coveredLines (calculateCoverageStats (platform := utilWorkspace) [zeroFoundRecord]) = 5.
Proof. repeat split; reflexivity. Qed.

(** * Further properties *)

(** ** The detail synthesizer as one expression *)

Lemma Position_new_eq line character p :
  Position_new line character = Ok p ->
  p = {| pos_line := line; pos_character := character |}.
Proof.
  intros Hnew. apply Position_new_Ok in Hnew as (_ & Hline & Hcharacter).
  destruct p. simpl in *. by subst.
Qed.

Lemma Range_new_wholeLine line r :
  Range_new (line - 1) 0 (line - 1) MAX_SAFE_INTEGER = Ok r -> r = wholeLine line.
Proof.
  unfold Range_new. intros Hnew.
  apply bind_Ok in Hnew as (s & Hs & Hnew).
  apply bind_Ok in Hnew as (e & He & Hnew).
  apply Position_new_eq in Hs as ->. apply Position_new_eq in He as ->.
  unfold Position_isBefore in Hnew. simpl in Hnew.
  rewrite Z.ltb_irrefl in Hnew. simpl in Hnew. by injection Hnew as <-.
Qed.

Lemma collectBranch_lookup branch m m' :
  collectBranch branch m = Ok m' ->
  forall l : number, default [] (m' !! l) =
    default [] (m !! l)
    ++ (if LcovBranchDetail.line branch =? l then [markOf branch] else []).
Proof.
  unfold collectBranch. intros Hrun l.
  apply bind_Ok in Hrun as (position & Hposition & Hrun).
  apply Position_new_eq in Hposition as ->. injection Hrun as <-.
  set (mark := Build_BranchCoverage _ _ _).
  change mark with (markOf branch). clear mark.
  destruct (Z.eqb_spec (LcovBranchDetail.line branch) l) as [<-|Hne].
  - destruct (m !! LcovBranchDetail.line branch) as [bs|] eqn:Hm;
      rewrite ?Hm, ?lookup_insert_eq; by rewrite ?lookup_insert_eq.
  - rewrite app_nil_r.
    destruct (m !! LcovBranchDetail.line branch) as [bs|] eqn:Hm;
      rewrite ?Hm, ?lookup_insert_eq; by rewrite !lookup_insert_ne.
Qed.

Lemma collectBranch_loop_lookup bds m :
  for_of collectBranch bds ∅ = Ok m ->
  forall l : number, default [] (m !! l) =
    map markOf (List.filter (fun branch => LcovBranchDetail.line branch =? l) bds).
Proof.
  intros Hrun.
  apply (for_of_invariant collectBranch
           (fun visited m => forall l : number, default [] (m !! l) =
              map markOf
                (List.filter (fun branch => LcovBranchDetail.line branch =? l) visited))
           bds ∅ m); [ | | exact Hrun].
  - intros l. by rewrite lookup_empty.
  - intros visited x s1 s2 _ IH Hbody l.
    rewrite (collectBranch_lookup x s1 s2 Hbody), IH, List.filter_app, map_app.
    simpl. by destruct (_ =? _).
Qed.

Lemma branches_phase_lookup record m :
  match details (branches record) with
  | Some ((_ :: _) as bds) => for_of collectBranch bds ∅
  | _ => Ok ∅
  end = Ok m ->
  forall l : number, default [] (m !! l) = marksOfLine record l.
Proof.
  unfold marksOfLine, branchDetails.
  destruct (details (branches record)) as [[|b bds]|]; intros Hrun l;
    try (injection Hrun as <-; by rewrite lookup_empty).
  by apply collectBranch_loop_lookup.
Qed.

Lemma declareFunction_loop_items fds st :
  for_of declareFunction fds ([], ∅) = Ok st ->
  st.1 = map declarationItem
           (List.filter (fun func => 0 <? LcovFunctionDetail.line func) fds).
Proof.
  intros Hrun.
  apply (for_of_invariant declareFunction
           (fun visited (st : list FileCoverageDetail * gset Z) =>
              st.1 = map declarationItem
                       (List.filter (fun func => 0 <? LcovFunctionDetail.line func)
                          visited))
           fds ([], ∅) st); [done | | exact Hrun].
  intros visited func [ds pl] st2 _ IH Hbody. simpl in IH. subst ds.
  unfold declareFunction in Hbody.
  rewrite List.filter_app, map_app. simpl.
  destruct (0 <? LcovFunctionDetail.line func).
  - apply bind_Ok in Hbody as (range & Hrange & Hbody).
    apply Range_new_wholeLine in Hrange as ->. by injection Hbody as <-.
  - injection Hbody as <-. simpl. by rewrite app_nil_r.
Qed.

Lemma functions_phase_items record st :
  match details (functions record) with
  | Some ((_ :: _) as fds) => for_of declareFunction fds ([], ∅)
  | _ => Ok ([], ∅)
  end = Ok st ->
  st.1 = map declarationItem
           (List.filter (fun func => 0 <? LcovFunctionDetail.line func)
              (functionDetails record)).
Proof.
  unfold functionDetails.
  destruct (details (functions record)) as [[|f fds]|]; intros Hrun;
    try (by injection Hrun as <-).
  by apply declareFunction_loop_items.
Qed.

Lemma coverLine_loop_items m processedLines lds ds out :
  for_of (coverLine m processedLines) lds ds = Ok out ->
  out = ds ++
    map (fun line =>
           StatementCoverage
             (if 0 <? LcovLineDetail.hit line
              then ExecutedCount (LcovLineDetail.hit line)
              else ExecutedFlag false)
             (wholeLine (LcovLineDetail.line line))
             (default [] (m !! LcovLineDetail.line line)))
        (List.filter
           (fun line => negb (bool_decide (LcovLineDetail.line line ∈ processedLines)))
           lds).
Proof.
  intros Hrun.
  apply (for_of_invariant (coverLine m processedLines)
           (fun visited out => out = ds ++
              map (fun line =>
                     StatementCoverage
                       (if 0 <? LcovLineDetail.hit line
                        then ExecutedCount (LcovLineDetail.hit line)
                        else ExecutedFlag false)
                       (wholeLine (LcovLineDetail.line line))
                       (default [] (m !! LcovLineDetail.line line)))
                  (List.filter
                     (fun line =>
                        negb (bool_decide (LcovLineDetail.line line ∈ processedLines)))
                     visited))
           lds ds out); [by rewrite app_nil_r | | exact Hrun].
  intros visited line out1 out2 _ -> Hbody. unfold coverLine in Hbody.
  rewrite List.filter_app, map_app. simpl.
  destruct (bool_decide (LcovLineDetail.line line ∈ processedLines)); simpl.
  { injection Hbody as <-. by rewrite app_nil_r. }
  apply bind_Ok in Hbody as (range & Hrange & Hbody).
  apply Range_new_wholeLine in Hrange as ->.
  rewrite app_assoc.
  destruct (default [] (m !! LcovLineDetail.line line)) as [|b bs];
    simpl in Hbody; by injection Hbody as <-.
Qed.

Lemma claimedb_spec record (l : number) : claimedb record l = true <-> claimed record l.
Proof.
  unfold claimedb, claimed. rewrite existsb_exists. split.
  - intros (func & Hin & Htest). apply andb_true_iff in Htest as [Hline Hpos].
    exists func. rewrite <- list_elem_of_In in Hin. split; [done|]. lia.
  - intros (func & Hin & Hline & Hpos). exists func.
    rewrite <- list_elem_of_In. split; [done|]. apply andb_true_iff. lia.
Qed.

(** X1. Whenever synthesis returns, its output is [synthesize record]: one
    declaration per function detail with a positive line, in report order,
    then one statement per line detail on an unclaimed line, in report
    order and duplicates included, each carrying the marks of all the
    branch details of its line in report order. *)
Theorem synthesis_closed_form record out :
  loadDetailedCoverageForRecord record = Ok out -> out = synthesize record.
Proof.
  unfold loadDetailedCoverageForRecord, synthesize, lineDetails. intros Hrun.
  destruct (details (lines record)) as [[|l lds]|] eqn:Hlines;
    try (by injection Hrun as <-).
  apply bind_Ok in Hrun as (m & Hm & Hrun).
  apply bind_Ok in Hrun as ([ds pl] & Hst & Hrun).
  pose proof (branches_phase_lookup record m Hm) as Hmarks.
  pose proof (functions_phase_items record _ Hst) as Hds.
  apply functions_phase in Hst as [_ Hpl]. simpl in Hds, Hpl. subst ds.
  apply (coverLine_loop_items m pl (l :: lds)) in Hrun as ->. simpl default.
  f_equal.
  erewrite List.filter_ext.
  - apply map_ext. intros line. unfold statementItem. by rewrite Hmarks.
  - intros line. simpl. f_equal.
    destruct (claimedb record (LcovLineDetail.line line)) eqn:Hclaimed.
    + apply bool_decide_eq_true. apply Hpl. by apply claimedb_spec.
    + apply bool_decide_eq_false. intros Hin. apply Hpl, claimedb_spec in Hin.
      congruence.
Qed.

Lemma synthesis_closed_form_witness :
  loadDetailedCoverageForRecord sampleRecord = Ok sampleDetails /\
  sampleDetails = synthesize sampleRecord.
Proof.
  split; [reflexivity|].
  apply (synthesis_closed_form sampleRecord sampleDetails). reflexivity.
Defined.

(** Everything a loop that ran to its end has visited satisfies what each
    successful turn establishes. *)
Lemma for_of_visited {A S} (body : A -> S -> Result S) (Q : A -> Prop)
    (xs : list A) (s0 s : S) :
  (forall x s1 s2, body x s1 = Ok s2 -> Q x) ->
  for_of body xs s0 = Ok s ->
  forall x, x ∈ xs -> Q x.
Proof.
  intros Hbody Hrun.
  apply (for_of_invariant body (fun visited _ => forall x, x ∈ visited -> Q x)
           xs s0 s); [ | | exact Hrun].
  - intros x Hx. by apply elem_of_nil in Hx.
  - intros visited x s1 s2 _ IH Hturn y Hy.
    apply elem_of_app in Hy as [Hy|Hy]; [by apply IH|].
    apply list_elem_of_singleton in Hy as ->. by eapply Hbody.
Qed.

(** A record with line details on which synthesis returns has all its
    line and branch details numbered from 1 on. *)
Lemma synthesis_Ok_valid record out :
  ~ noLineDetails record ->
  loadDetailedCoverageForRecord record = Ok out ->
  lineNumbersValid record.
Proof.
  unfold loadDetailedCoverageForRecord, lineNumbersValid, lineDetails, branchDetails,
    noLineDetails.
  intros Hdetails Hrun.
  destruct (details (lines record)) as [[|l lds]|] eqn:Hlines;
    [destruct Hdetails; by right | | destruct Hdetails; by left].
  apply bind_Ok in Hrun as (m & Hm & Hrun).
  apply bind_Ok in Hrun as ([ds pl] & Hst & Hrun).
  apply functions_phase in Hst as [_ Hpl]. simpl in Hpl, Hrun. split.
  - apply (for_of_visited (coverLine m pl)
             (fun line => 1 <= LcovLineDetail.line line) (l :: lds) ds out);
      [|exact Hrun].
    intros line s1 s2. unfold coverLine. case_bool_decide as Hclaimed.
    + intros _. apply Hpl in Hclaimed as (func & _ & _ & Hpos). lia.
    + intros Hturn. apply bind_Ok in Hturn as (range & Hrange & _).
      by apply Range_new_line in Hrange as [? _].
  - destruct (details (branches record)) as [[|b bds]|];
      try (intros branch Hin; by apply elem_of_nil in Hin).
    apply (for_of_visited collectBranch
             (fun branch => 1 <= LcovBranchDetail.line branch) (b :: bds) ∅ m);
      [|exact Hm].
    intros branch s1 s2. unfold collectBranch. intros Hturn.
    apply bind_Ok in Hturn as (position & Hposition & _).
    apply Position_new_Ok in Hposition as [? _]. lia.
Qed.

(** X2. Synthesis returns a result exactly when the record has no line
    details or all its line details and branch details are numbered from
    1 on; otherwise building a position throws. *)
Theorem synthesis_succeeds_iff record :
  (exists out, loadDetailedCoverageForRecord record = Ok out) <->
  noLineDetails record \/ lineNumbersValid record.
Proof.
  split.
  - intros [out Hrun].
    destruct (details (lines record)) as [[|l lds]|] eqn:Hlines;
      [left; by right | | left; by left].
    right. apply (synthesis_Ok_valid record out); [|done].
    unfold noLineDetails. rewrite Hlines. intros [?|?]; discriminate.
  - intros [Hnone | [Hlines Hbranches]].
    + exists []. by apply noLineDetails_empty.
    + by apply loadDetailedCoverageForRecord_total.
Qed.

(** X3. A record that has line details and a line or branch detail
    numbered below 1 yields no inline detail at all: synthesis throws, and
    both [loadDetailedCoverage] and the detail callback answer with the
    empty sequence for it. *)
Theorem invalid_line_number_swallowed record :
  ~ noLineDetails record ->
  ~ lineNumbersValid record ->
  (exists message, loadDetailedCoverageForRecord record = Throw message) /\
  (forall {platform : Platform} uri parser,
      (getFileRecord uri parser).1 = Some record ->
      (loadDetailedCoverage uri parser).1 = []) /\
  (forall {platform : Platform} fileCoverage svc,
      fileCoverageRecordMap svc !! fc_id fileCoverage = Some record ->
      (profile_loadDetailedCoverage fileCoverage svc).1 = []).
Proof.
  intros Hdetails Hinvalid.
  assert (Hthrow : exists message, loadDetailedCoverageForRecord record = Throw message).
  { destruct (loadDetailedCoverageForRecord record) as [out|message] eqn:Hrun;
      [|by eauto].
    destruct Hinvalid. by apply (synthesis_Ok_valid record out). }
  destruct Hthrow as [message Hthrow]. split; [by eauto|]. split.
  - intros platform uri parser Hfound.
    by rewrite loadDetailedCoverage_lookup, Hfound, Hthrow.
  - intros platform fileCoverage svc Hhandle. unfold profile_loadDetailedCoverage.
    destruct (_ || _); [|done]. by rewrite Hhandle, Hthrow.
Qed.

Lemma invalid_line_number_swallowed_witness :
  (exists message, loadDetailedCoverageForRecord zeroLineRecord = Throw message) /\
  (forall {platform : Platform} uri parser,
      (getFileRecord uri parser).1 = Some zeroLineRecord ->
      (loadDetailedCoverage uri parser).1 = []) /\
  (forall {platform : Platform} fileCoverage svc,
      fileCoverageRecordMap svc !! fc_id fileCoverage = Some zeroLineRecord ->
      (profile_loadDetailedCoverage fileCoverage svc).1 = []).
Proof.
  apply (invalid_line_number_swallowed zeroLineRecord).
  - intros [Hnone | Hempty]; discriminate.
  - intros [Hlines _].
    specialize (Hlines {| LcovLineDetail.line := 0; LcovLineDetail.hit := 1 |}).
    cbv in Hlines. apply Hlines; [apply list_elem_of_here | reflexivity].
Defined.

(** ** One pass of [convertToFileCoverage] *)

Lemma JsMap_get_None {V} (k : string) (m : JsMap.t V) :
  JsMap.get k m = None <-> k ∉ map fst m.
Proof.
  induction m as [|[k' v] m IH]; simpl.
  - split; [intros _; apply not_elem_of_nil | done].
  - rewrite not_elem_of_cons.
    destruct (String.eqb_spec k k') as [->|Hne]; [split; [done | by intros [? _]]|].
    rewrite IH. tauto.
Qed.

Lemma JsMap_set_keys {V} (k : string) (v : V) (m : JsMap.t V) :
  map fst (JsMap.set k v m) =
    match JsMap.get k m with
    | Some _ => map fst m
    | None => map fst m ++ [k]
    end.
Proof.
  induction m as [|[k' v'] m IH]; simpl; [done|].
  destruct (String.eqb_spec k k') as [->|Hne]; simpl; [done|].
  rewrite IH. by destruct (JsMap.get k m).
Qed.

Lemma JsMap_set_NoDup {V} (k : string) (v : V) (m : JsMap.t V) :
  NoDup (map fst m) -> NoDup (map fst (JsMap.set k v m)).
Proof.
  intros Hm. rewrite JsMap_set_keys.
  destruct (JsMap.get k m) eqn:Hget; [done|].
  apply NoDup_app. split; [done|]. split; [|apply NoDup_singleton].
  intros x Hx Hk. apply list_elem_of_singleton in Hk as ->.
  by apply JsMap_get_None in Hget.
Qed.

Section PassProperties.
Context {platform : Platform}.

Lemma resolve_spec_exists workspaceFolder recordFile resolved :
  resolve_spec workspaceFolder recordFile = Some resolved ->
  fs_existsSync resolved = true.
Proof.
  unfold resolve_spec.
  destruct (path_isAbsolute recordFile && fs_existsSync recordFile) eqn:Habsolute.
  { intros [= <-]. by apply andb_true_iff in Habsolute as [_ ?]. }
  destruct (fs_existsSync (path_join [workspaceFolder; recordFile])) eqn:Hjoined.
  { by intros [= <-]. }
  intros Hfind. by apply List.find_some in Hfind as [_ ?].
Qed.

(** One turn of the loop, with the resolution replaced by the ladder. *)
Lemma convertRecord_turn workspaceFolder record result cache parser :
  cacheConsistent cache ->
  (convertRecord workspaceFolder record (result, cache, parser)).1.1 =
    result ++
      match coverageOf workspaceFolder record with
      | Some summary => [coverageObject (objectCount parser) summary]
      | None => []
      end /\
  objectCount (convertRecord workspaceFolder record (result, cache, parser)).2 =
    match coverageOf workspaceFolder record with
    | Some _ => S (objectCount parser)
    | None => objectCount parser
    end.
Proof.
  intros Hcache. unfold convertRecord, coverageOf.
  destruct (resolveFilePath_spec workspaceFolder (file record) cache Hcache)
    as [<- _].
  destruct (resolveFilePath workspaceFolder (file record) cache)
    as [[resolved|] cache']; simpl; [|by rewrite app_nil_r].
  fold (statementCount record) (branchCount record) (declarationCount record).
  destruct (FileCoverage_validate _ _ _); simpl; [done | by rewrite app_nil_r].
Qed.

Lemma convert_fold_result workspaceFolder records (st : ConvertState) :
  cacheConsistent st.1.2 ->
  (fold_left (fun st record => convertRecord workspaceFolder record st) records st).1.1 =
    st.1.1 ++
      imap (fun i summary => coverageObject (objectCount st.2 + i) summary)
        (omap (coverageOf workspaceFolder) records) /\
  objectCount
    (fold_left (fun st record => convertRecord workspaceFolder record st) records st).2 =
    (objectCount st.2 + length (omap (coverageOf workspaceFolder) records))%nat.
Proof.
  revert st. induction records as [|record records IH]; intros st Hcache; simpl.
  { rewrite app_nil_r. split; [done | lia]. }
  assert (Hcache' : cacheConsistent (convertRecord workspaceFolder record st).1.2).
  { apply (convert_fold_consistent workspaceFolder [record] st Hcache). }
  destruct (IH _ Hcache') as [-> ->]. clear IH.
  destruct st as [[result cache] parser]. simpl in Hcache.
  destruct (convertRecord_turn workspaceFolder record result cache parser Hcache)
    as [-> ->].
  simpl. destruct (coverageOf workspaceFolder record) as [summary|]; simpl.
  - rewrite <- app_assoc. simpl. rewrite Nat.add_0_r. split; [|by rewrite Nat.add_succ_r].
    do 2 f_equal. apply imap_ext. intros i x _. simpl. f_equal. lia.
  - by rewrite app_nil_r.
Qed.

(** X4. The result of a pass, as one expression: one coverage object for
    every record whose path resolves and whose counts the constructor
    accepts, in report order and duplicates included, carrying the summary
    counts of its record and numbered consecutively from the number of
    objects allocated before. *)
Theorem convertToFileCoverage_closed_form records workspaceFolder parser :
  (convertToFileCoverage records workspaceFolder parser).1 =
    imap (fun i summary => coverageObject (objectCount parser + i) summary)
      (omap (coverageOf workspaceFolder) records) /\
  objectCount (convertToFileCoverage records workspaceFolder parser).2 =
    (objectCount parser
     + length (convertToFileCoverage records workspaceFolder parser).1)%nat.
Proof.
  unfold convertToFileCoverage. cbn [fst snd].
  destruct (convert_fold_result workspaceFolder records
              ([], ∅, clearFileRecords parser) cacheConsistent_empty) as [-> ->].
  simpl. by rewrite length_imap.
Qed.
End PassProperties.

Section StoreProperties.
Context {platform : Platform}.

Lemma convert_result_origin records workspaceFolder parser fileCoverage :
  fileCoverage ∈ (convertToFileCoverage records workspaceFolder parser).1 ->
  exists record resolved,
    record ∈ records /\
    resolve_spec workspaceFolder (file record) = Some resolved /\
    fs_existsSync resolved = true /\
    fc_uri fileCoverage = Uri_file resolved /\
    statementCoverage fileCoverage = statementCount record /\
    branchCoverage fileCoverage = branchCount record /\
    declarationCoverage fileCoverage = declarationCount record.
Proof.
  unfold convertToFileCoverage. cbn [fst snd].
  destruct (convert_fold_result workspaceFolder records
              ([], ∅, clearFileRecords parser) cacheConsistent_empty) as [-> _].
  simpl. intros Hin.
  apply elem_of_lookup_imap_1 in Hin as (i & summary & -> & Hlookup).
  apply list_elem_of_lookup_2, list_elem_of_omap in Hlookup
    as (record & Hrecord & Hcoverage).
  unfold coverageOf in Hcoverage.
  destruct (resolve_spec workspaceFolder (file record)) as [resolved|] eqn:Hresolve;
    [|discriminate].
  destruct (FileCoverage_validate _ _ _); [|discriminate].
  injection Hcoverage as <-. exists record, resolved.
  repeat split; try done. by eapply resolve_spec_exists.
Qed.

(** X5. Every coverage object a pass returns is for a file that exists:
    its URI is that of the path some record of the report resolves to, that
    path exists, and it carries the summary counts of that record. *)
Theorem convertToFileCoverage_sound records workspaceFolder parser fileCoverage :
  fileCoverage ∈ (convertToFileCoverage records workspaceFolder parser).1 ->
  exists record resolved,
    record ∈ records /\
    resolve_spec workspaceFolder (file record) = Some resolved /\
    fs_existsSync resolved = true /\
    fc_uri fileCoverage = Uri_file resolved /\
    statementCoverage fileCoverage = statementCount record /\
    branchCoverage fileCoverage = branchCount record /\
    declarationCoverage fileCoverage = declarationCount record.
Proof. apply convert_result_origin. Qed.

Lemma coverageObject_ids (n : nat)
    (summaries : list (Uri * TestCoverageCount * option TestCoverageCount
                       * option TestCoverageCount)) :
  map fc_id (imap (fun i summary => coverageObject (n + i) summary) summaries) =
    seq n (length summaries).
Proof.
  change (map fc_id ?l) with (fc_id <$> l). rewrite fmap_imap.
  rewrite (imap_ext _ (fun j _ => id (n + j)%nat)) by done.
  rewrite (imap_seq summaries id n). apply list_fmap_id.
Qed.

Lemma convert_result_ids records workspaceFolder parser :
  map fc_id (convertToFileCoverage records workspaceFolder parser).1 =
    seq (objectCount parser)
      (length (convertToFileCoverage records workspaceFolder parser).1).
Proof.
  unfold convertToFileCoverage. cbn [fst snd].
  destruct (convert_fold_result workspaceFolder records
              ([], ∅, clearFileRecords parser) cacheConsistent_empty) as [-> _].
  simpl. rewrite coverageObject_ids. by rewrite length_imap.
Qed.

Lemma convert_result_count records workspaceFolder parser :
  objectCount (convertToFileCoverage records workspaceFolder parser).2 =
    (objectCount parser
     + length (convertToFileCoverage records workspaceFolder parser).1)%nat.
Proof.
  unfold convertToFileCoverage. cbn [fst snd].
  destruct (convert_fold_result workspaceFolder records
              ([], ∅, clearFileRecords parser) cacheConsistent_empty) as [-> ->].
  simpl. by rewrite length_imap.
Qed.

(** The coverage objects of a pass are new objects: their identities
    are the consecutive numbers from the count of objects allocated before
    the pass, so they are pairwise distinct and differ from the identity
    of every object of an earlier pass. *)
Theorem convertToFileCoverage_fresh_objects records workspaceFolder parser :
  map fc_id (convertToFileCoverage records workspaceFolder parser).1 =
    seq (objectCount parser)
      (length (convertToFileCoverage records workspaceFolder parser).1).
Proof. apply convert_result_ids. Qed.

Lemma convertRecord_keys workspaceFolder k record (st : ConvertState) :
  cacheConsistent st.1.2 ->
  is_Some (JsMap.get k (fileRecordMap (convertRecord workspaceFolder record st).2)) <->
  is_Some (JsMap.get k (fileRecordMap st.2)) \/
  identityOf workspaceFolder record = Some k.
Proof.
  intros Hcache. destruct st as [[result cache] parser]. simpl in Hcache.
  destruct (convertRecord_store workspaceFolder record result cache parser)
    as [_ ->].
  rewrite identityOf_spec.
  destruct (resolveFilePath_spec workspaceFolder (file record) cache Hcache)
    as [-> _].
  destruct (resolve_spec workspaceFolder (file record)) as [resolved|]; simpl.
  - destruct (decide (uri_toString (Uri_file resolved) = k)) as [<-|Hne].
    + rewrite JsMap_get_set_eq. split; [by right | by eauto].
    + rewrite JsMap_get_set_ne by done. split; [by left|].
      intros [?|?]; [done | congruence].
  - split; [by left | by intros [?|?]].
Qed.

Lemma convert_fold_keys workspaceFolder k records (st : ConvertState) :
  cacheConsistent st.1.2 ->
  is_Some (JsMap.get k
             (fileRecordMap
                (fold_left (fun st record => convertRecord workspaceFolder record st)
                   records st).2)) <->
  is_Some (JsMap.get k (fileRecordMap st.2)) \/
  exists record, record ∈ records /\ identityOf workspaceFolder record = Some k.
Proof.
  revert st. induction records as [|record records IH]; intros st Hcache; simpl.
  - split; [by left|]. intros [?|(record & Hin & _)]; [done|].
    by apply elem_of_nil in Hin.
  - rewrite IH by apply (convert_fold_consistent workspaceFolder [record] st Hcache).
    rewrite convertRecord_keys by done. split.
    + intros [[?|?]|(r & Hin & Hid)]; [by left | right | right].
      * exists record. split; [apply list_elem_of_here | done].
      * exists r. split; [by apply list_elem_of_further | done].
    + intros [?|(r & Hin & Hid)]; [by left; left|].
      apply elem_of_cons in Hin as [->|Hin]; [by left; right|].
      right. by exists r.
Qed.

(** X6. A pass starts from an empty record store: after it, an identity
    has a record exactly when some record of this report resolves to it,
    whatever the store held before; and the store holds at most one entry
    per record of the report. *)
Theorem convertToFileCoverage_store_keys records workspaceFolder parser k :
  (is_Some (JsMap.get k
              (fileRecordMap (convertToFileCoverage records workspaceFolder parser).2))
   <-> exists record,
         record ∈ records /\ identityOf workspaceFolder record = Some k) /\
  (getRecordCount (convertToFileCoverage records workspaceFolder parser).2
   <= length records)%nat.
Proof.
  unfold convertToFileCoverage. cbn [fst snd]. split.
  - rewrite convert_fold_keys by apply cacheConsistent_empty. simpl.
    split; [|by right]. intros [[? [=]]|?]. done.
  - unfold getRecordCount, JsMap.size.
    assert (Hgen : forall (st : ConvertState),
      (length (fileRecordMap
                 (fold_left (fun st record => convertRecord workspaceFolder record st)
                    records st).2)
       <= length (fileRecordMap st.2) + length records)%nat).
    { induction records as [|record records IH]; intros st; simpl; [lia|].
      etransitivity; [apply IH|].
      destruct st as [[result cache] parser0].
      destruct (convertRecord_store workspaceFolder record result cache parser0)
        as [_ ->]. simpl.
      destruct (resolveFilePath _ _ _).1; [|lia].
      assert (Hset : forall k (v : LcovFileRecord) m,
                (length (JsMap.set k v m) <= S (length m))%nat).
      { intros k0 v m. induction m as [|[k' v'] m IHm]; simpl; [lia|].
        destruct (String.eqb k0 k'); simpl; lia. }
      specialize (Hset (uri_toString (Uri_file s)) record (fileRecordMap parser0)).
      lia. }
    apply (Hgen ([], ∅, clearFileRecords parser)).
Qed.

Lemma getFileRecord_NoDup uri parser :
  NoDup (map fst (fileRecordMap parser)) ->
  NoDup (map fst (fileRecordMap (getFileRecord uri parser).2)).
Proof.
  intros Hparser. unfold getFileRecord.
  destruct (JsMap.get _ _); [done|].
  destruct (findByPath _ _); [|done]. simpl. by apply JsMap_set_NoDup.
Qed.

(** The record store never holds two entries under one key: after a
    pass and any sequence of lookups, the keys of [getRecordEntries] are
    pairwise distinct, as those of a JavaScript [Map] are. *)
Theorem record_store_keys_distinct records workspaceFolder parser probes :
  NoDup (map fst
           (getRecordEntries
              (probeAll probes
                 (convertToFileCoverage records workspaceFolder parser).2))).
Proof.
  unfold getRecordEntries, JsMap.entries.
  assert (Hpass : NoDup (map fst (fileRecordMap
            (convertToFileCoverage records workspaceFolder parser).2))).
  { unfold convertToFileCoverage. cbn [fst snd].
    assert (Hgen : forall (st : ConvertState),
      NoDup (map fst (fileRecordMap st.2)) ->
      NoDup (map fst (fileRecordMap
               (fold_left (fun st record => convertRecord workspaceFolder record st)
                  records st).2))).
    { induction records as [|record records IH]; intros st Hst; [done|].
      simpl. apply IH. destruct st as [[result cache] parser0].
      destruct (convertRecord_store workspaceFolder record result cache parser0)
        as [_ ->].
      destruct (resolveFilePath _ _ _).1; [|done]. by apply JsMap_set_NoDup. }
    apply Hgen. simpl. apply NoDup_nil_2. }
  revert Hpass. generalize (convertToFileCoverage records workspaceFolder parser).2.
  induction probes as [|uri probes IH]; intros parser0 Hparser0; [done|].
  simpl. apply IH. by apply getFileRecord_NoDup.
Qed.
End StoreProperties.

(** ** Lookups that write *)

Lemma JsMap_set_length_new {V} (k : string) (v : V) (m : JsMap.t V) :
  JsMap.get k m = None -> length (JsMap.set k v m) = S (length m).
Proof.
  induction m as [|[k' v'] m IH]; simpl; [done|].
  destruct (String.eqb k k'); [discriminate|]. intros Hget. simpl. by rewrite IH.
Qed.

Section LookupWrites.
Context {platform : Platform}.

(** X7. A lookup is idempotent: asking again for the same URI gives the
    same answer and changes nothing more, because a fallback hit was
    memoized under the URI and is then found by the exact lookup. *)
Theorem getFileRecord_idempotent uri parser :
  getFileRecord uri (getFileRecord uri parser).2 =
    ((getFileRecord uri parser).1, (getFileRecord uri parser).2).
Proof.
  unfold getFileRecord at 2 3 4.
  destruct (JsMap.get (uri_toString uri) (fileRecordMap parser)) as [record|] eqn:Hget.
  - simpl. by apply getFileRecord_hit.
  - destruct (findByPath (uri_fsPath uri) (JsMap.entries (fileRecordMap parser)))
      as [value|] eqn:Hfind; simpl.
    + apply getFileRecord_hit. simpl. apply JsMap_get_set_eq.
    + unfold getFileRecord. by rewrite Hget, Hfind.
Qed.

(** X8. A lookup is not read-only: a hit by the path fallback adds one
    entry to the record store, so [getRecordCount] grows by one; an exact
    hit and a miss leave the store as it was. *)
Theorem getFileRecord_record_count uri parser :
  match JsMap.get (uri_toString uri) (fileRecordMap parser),
        (getFileRecord uri parser).1 with
  | None, Some _ =>
      getRecordCount (getFileRecord uri parser).2 = S (getRecordCount parser)
  | _, _ => (getFileRecord uri parser).2 = parser
  end.
Proof.
  unfold getFileRecord.
  destruct (JsMap.get (uri_toString uri) (fileRecordMap parser)) as [record|] eqn:Hget;
    [done|].
  destruct (findByPath _ _); simpl; [|done].
  unfold getRecordCount, JsMap.size. simpl. by apply JsMap_set_length_new.
Qed.
End LookupWrites.

(** ** Loads *)

Section LoadProperties.
Context {platform : Platform}.

(** X9. A load whose report is missing or does not parse shows two
    messages, the parse error and then the warning that the report holds no
    coverage data, shows no statistics, adds no coverage and leaves the
    service as it was. *)
Theorem loadCoverage_failed_parse lcovFilePath workspaceFolder token svc :
  fs_existsSync lcovFilePath = false \/
  (exists message, parseLcov lcovFilePath = Throw message) ->
  token 0%nat = false ->
  exists message,
    loadCoverage lcovFilePath (Some workspaceFolder) token svc =
      ({| notifications :=
            [ShowErrorMessage ("Error parsing LCOV file: " +:+ message);
             ShowWarningMessage "No coverage data found in the LCOV file."];
          shownStats := None;
          addedCoverage := [] |}, svc).
Proof.
  intros Hfail Htoken. unfold loadCoverage, parse.
  destruct (fs_existsSync lcovFilePath) eqn:Hexists; simpl.
  - destruct Hfail as [?|[message Hparse]]; [done|]. rewrite Hparse. simpl.
    rewrite Htoken. by exists message.
  - rewrite Htoken. by eexists.
Qed.

(** X10. A load that does not get as far as showing statistics changes
    nothing: it adds no coverage and the service, with its record store and
    handles, is as before. *)
Theorem loadCoverage_no_stats_no_change lcovFilePath workspaceFolder token svc :
  shownStats (loadCoverage lcovFilePath workspaceFolder token svc).1 = None ->
  (loadCoverage lcovFilePath workspaceFolder token svc).2 = svc /\
  addedCoverage (loadCoverage lcovFilePath workspaceFolder token svc).1 = [].
Proof.
  unfold loadCoverage.
  destruct workspaceFolder as [workspaceFolder|]; [|done].
  destruct (parse lcovFilePath) as [records messages].
  destruct (token 0%nat); [done|].
  destruct (length records =? 0)%nat; [done|].
  destruct (token 1%nat); [done|].
  destruct (token 2%nat); [discriminate|].
  destruct (processCoverageFiles _ _ _ _ _). discriminate.
Qed.
End LoadProperties.

Lemma loadCoverage_failed_parse_witness :
  exists message,
    loadCoverage (platform := utilWorkspace) "/ws/coverage/none.info" (Some "/ws")
      neverCancelled newCoverageService =
      ({| notifications :=
            [ShowErrorMessage ("Error parsing LCOV file: " +:+ message);
             ShowWarningMessage "No coverage data found in the LCOV file."];
          shownStats := None;
          addedCoverage := [] |}, newCoverageService).
Proof.
  apply (loadCoverage_failed_parse (platform := utilWorkspace)
           "/ws/coverage/none.info" "/ws" neverCancelled newCoverageService).
  - left. reflexivity.
  - reflexivity.
Defined.

Lemma loadCoverage_no_stats_no_change_witness :
  (loadCoverage (platform := utilWorkspace) "/ws/coverage/lcov.info" None
     neverCancelled newCoverageService).2 = newCoverageService /\
  addedCoverage
    (loadCoverage (platform := utilWorkspace) "/ws/coverage/lcov.info" None
       neverCancelled newCoverageService).1 = [].
Proof.
  apply (loadCoverage_no_stats_no_change (platform := utilWorkspace)
           "/ws/coverage/lcov.info" None neverCancelled newCoverageService).
  reflexivity.
Defined.

Section HandleProperties.
Context {platform : Platform}.

(** What the loop of [processCoverageFiles] does when every coverage
    object has its URI in the record store: [visited] are the objects
    reached before a cancellation was seen. *)
Lemma addCoverages_spec token fileCoverages :
  forall check added svc,
    (forall fc, fc ∈ fileCoverages ->
       is_Some (JsMap.get (uri_toString (fc_uri fc)) (fileRecordMap (parser svc)))) ->
    exists visited,
      visited `prefix_of` fileCoverages /\
      (addCoverages token check fileCoverages added svc).1 = added ++ visited /\
      parser (addCoverages token check fileCoverages added svc).2 = parser svc /\
      (forall id, id ∉ map fc_id visited ->
         fileCoverageRecordMap (addCoverages token check fileCoverages added svc).2
           !! id = fileCoverageRecordMap svc !! id) /\
      (NoDup (map fc_id fileCoverages) ->
       forall fc, fc ∈ visited ->
         fileCoverageRecordMap (addCoverages token check fileCoverages added svc).2
           !! fc_id fc =
         JsMap.get (uri_toString (fc_uri fc)) (fileRecordMap (parser svc))) /\
      ((forall n, token n = false) -> visited = fileCoverages).
Proof.
  induction fileCoverages as [|coverage rest IH]; intros check added svc Hkeys.
  { exists []. simpl. rewrite app_nil_r.
    split; [apply prefix_nil|]. do 3 (split; [done|]). split; [|done].
    intros _ fc Hfc. by apply elem_of_nil in Hfc. }
  simpl. destruct (token check) eqn:Htoken.
  { exists []. simpl. rewrite app_nil_r.
    split; [apply prefix_nil|]. do 3 (split; [done|]). split.
    - intros _ fc Hfc. by apply elem_of_nil in Hfc.
    - intros Hnever. by rewrite Hnever in Htoken. }
  destruct (Hkeys coverage) as [record Hrecord]; [apply list_elem_of_here|].
  rewrite (getFileRecord_hit (fc_uri coverage) (parser svc) record Hrecord).
  set (svc1 := Build_CoverageService _ _ _ _).
  destruct (IH (S check) (added ++ [coverage]) svc1)
    as (visited & Hprefix & Hadded & Hparser & Hother & Hhandles & Hall).
  { intros fc Hfc. apply Hkeys. by apply list_elem_of_further. }
  exists (coverage :: visited). split; [by apply prefix_cons|].
  split; [by rewrite Hadded, <- app_assoc|]. split; [done|].
  split; [|split].
  - intros id Hid. simpl in Hid. apply not_elem_of_cons in Hid as [Hne Hid].
    rewrite (Hother id Hid). simpl. by rewrite lookup_insert_ne.
  - intros Hdistinct fc Hfc. simpl in Hdistinct.
    apply NoDup_cons in Hdistinct as [Hfresh Hdistinct].
    apply elem_of_cons in Hfc as [->|Hfc]; [|by apply Hhandles].
    rewrite Hother.
    + simpl. by rewrite lookup_insert_eq.
    + intros Hin. apply Hfresh.
      destruct Hprefix as [tail ->]. rewrite map_app. apply elem_of_app. by left.
  - intros Hnever. by rewrite (Hall Hnever).
Qed.

Lemma convert_result_stored records workspaceFolder parser fc :
  fc ∈ (convertToFileCoverage records workspaceFolder parser).1 ->
  is_Some (JsMap.get (uri_toString (fc_uri fc))
             (fileRecordMap (convertToFileCoverage records workspaceFolder parser).2)).
Proof.
  intros Hfc.
  apply convert_result_origin in Hfc
    as (record & resolved & Hrecord & Hresolve & _ & -> & _).
  unfold convertToFileCoverage. cbn [fst snd].
  rewrite convert_fold_keys by apply cacheConsistent_empty. right.
  exists record. split; [done|]. by rewrite identityOf_spec, Hresolve.
Qed.

Lemma processCoverageFiles_spec records workspaceFolder token check svc :
  exists visited,
    visited `prefix_of` (convertToFileCoverage records workspaceFolder (parser svc)).1 /\
    (processCoverageFiles records workspaceFolder token check svc).1 = visited /\
    parser (processCoverageFiles records workspaceFolder token check svc).2 =
      (convertToFileCoverage records workspaceFolder (parser svc)).2 /\
    (forall id, id ∉ map fc_id visited ->
       fileCoverageRecordMap
         (processCoverageFiles records workspaceFolder token check svc).2 !! id =
       fileCoverageRecordMap svc !! id) /\
    (forall fc, fc ∈ visited ->
       fileCoverageRecordMap
         (processCoverageFiles records workspaceFolder token check svc).2 !! fc_id fc =
       JsMap.get (uri_toString (fc_uri fc))
         (fileRecordMap (convertToFileCoverage records workspaceFolder (parser svc)).2)) /\
    ((forall n, token n = false) ->
     visited = (convertToFileCoverage records workspaceFolder (parser svc)).1).
Proof.
  unfold processCoverageFiles.
  pose proof (convert_result_stored records workspaceFolder (parser svc)) as Hstored.
  pose proof (convert_result_ids records workspaceFolder (parser svc)) as Hids.
  destruct (convertToFileCoverage records workspaceFolder (parser svc))
    as [fileCoverages parser'].
  simpl in Hstored, Hids.
  set (svc0 := Build_CoverageService _ _ _ _).
  destruct (addCoverages_spec token fileCoverages check [] svc0 Hstored)
    as (visited & Hprefix & Hadded & Hparser & Hother & Hhandles & Hall).
  exists visited. repeat split; try done.
  apply Hhandles. rewrite Hids. apply NoDup_seq.
Qed.

(** The two ways a load can end: before the pass, with the record store
    and the handles untouched; or after [processCoverageFiles] ran on the
    records of the report. *)
Lemma loadCoverage_cases lcovFilePath workspaceFolder token svc :
  ((workspaceFolder = None \/ token 0%nat = true \/ (parse lcovFilePath).1 = [] \/
    token 1%nat = true \/ token 2%nat = true) /\
   parser (loadCoverage lcovFilePath workspaceFolder token svc).2 = parser svc /\
   fileCoverageRecordMap (loadCoverage lcovFilePath workspaceFolder token svc).2 =
     fileCoverageRecordMap svc /\
   addedCoverage (loadCoverage lcovFilePath workspaceFolder token svc).1 = []) \/
  (exists folder,
     workspaceFolder = Some folder /\
     token 0%nat = false /\ token 1%nat = false /\ token 2%nat = false /\
     (parse lcovFilePath).1 <> [] /\
     addedCoverage (loadCoverage lcovFilePath workspaceFolder token svc).1 =
       (processCoverageFiles (parse lcovFilePath).1 folder token 3
          (updateStatusBar (calculateCoverageStats (parse lcovFilePath).1) svc)).1 /\
     (loadCoverage lcovFilePath workspaceFolder token svc).2 =
       (processCoverageFiles (parse lcovFilePath).1 folder token 3
          (updateStatusBar (calculateCoverageStats (parse lcovFilePath).1) svc)).2).
Proof.
  unfold loadCoverage.
  destruct workspaceFolder as [folder|]; [|left; split; [by left | done]].
  destruct (parse lcovFilePath) as [records messages]. simpl.
  destruct (token 0%nat) eqn:Htoken0; [left; split; [by right; left | done]|].
  destruct records as [|record records];
    [left; split; [by right; right; left | done]|].
  simpl.
  destruct (token 1%nat) eqn:Htoken1;
    [left; split; [by right; right; right; left | done]|].
  destruct (token 2%nat) eqn:Htoken2;
    [left; split; [by right; right; right; right | done]|].
  right. exists folder.
  destruct (processCoverageFiles _ _ _ _ _) as [added svc'] eqn:Hprocess.
  by repeat split.
Qed.

(** X11. Cancellation stops a load without undoing it: the coverage added
    is a prefix, in order, of what the pass produced, and once the pass has
    run the record store holds all its records, however early the adding
    was cancelled. *)
Theorem loadCoverage_cancellation lcovFilePath workspaceFolder token svc :
  addedCoverage (loadCoverage lcovFilePath (Some workspaceFolder) token svc).1
    `prefix_of`
    (convertToFileCoverage (parse lcovFilePath).1 workspaceFolder (parser svc)).1 /\
  (token 0%nat = false -> token 1%nat = false -> token 2%nat = false ->
   (parse lcovFilePath).1 <> [] ->
   parser (loadCoverage lcovFilePath (Some workspaceFolder) token svc).2 =
     (convertToFileCoverage (parse lcovFilePath).1 workspaceFolder (parser svc)).2).
Proof.
  destruct (loadCoverage_cases lcovFilePath (Some workspaceFolder) token svc)
    as [(Hwhy & _ & _ & ->) | (folder & [= <-] & _ & _ & _ & _ & -> & ->)].
  - split; [apply prefix_nil|]. intros H0 H1 H2 Hrecords.
    destruct Hwhy as [?|[?|[?|[?|?]]]]; congruence.
  - destruct (processCoverageFiles_spec (parse lcovFilePath).1 workspaceFolder token 3
                (updateStatusBar (calculateCoverageStats (parse lcovFilePath).1) svc))
      as (visited & Hprefix & -> & Hstore & _).
    split; [done|]. by intros _ _ _ _.
Qed.
End HandleProperties.

Lemma loadCoverage_cancellation_witness :
  addedCoverage
    (loadCoverage (platform := utilWorkspace) "/ws/coverage/lcov.info" (Some "/ws")
       (cancelledFrom 4) newCoverageService).1
  = [coverageObject 0 (Posix.file_uri "/ws/lib/util.ts", statementCount libRecord,
                        None, None)] /\
  parser
    (loadCoverage (platform := utilWorkspace) "/ws/coverage/lcov.info" (Some "/ws")
       (cancelledFrom 4) newCoverageService).2
  = (convertToFileCoverage (platform := utilWorkspace)
       (parse (platform := utilWorkspace) "/ws/coverage/lcov.info").1 "/ws"
       (parser newCoverageService)).2.
Proof.
  split; [reflexivity|].
  apply (proj2 (loadCoverage_cancellation (platform := utilWorkspace)
                  "/ws/coverage/lcov.info" "/ws" (cancelledFrom 4)
                  newCoverageService)).
  - reflexivity.
  - reflexivity.
  - reflexivity.
  - discriminate.
Defined.

Section HandleLifetime.
Context {platform : Platform}.

Lemma getFileRecord_objectCount uri parser :
  objectCount (getFileRecord uri parser).2 = objectCount parser.
Proof.
  unfold getFileRecord. destruct (JsMap.get _ _); [done|].
  by destruct (findByPath _ _).
Qed.

Lemma visited_ids_fresh records workspaceFolder parser visited id :
  visited `prefix_of` (convertToFileCoverage records workspaceFolder parser).1 ->
  id ∈ map fc_id visited ->
  (objectCount parser <= id
   < objectCount (convertToFileCoverage records workspaceFolder parser).2)%nat.
Proof.
  intros [tail Hprefix] Hid.
  rewrite convert_result_count.
  assert (Hin : id ∈ map fc_id (convertToFileCoverage records workspaceFolder parser).1).
  { rewrite Hprefix, map_app. apply elem_of_app. by left. }
  rewrite convert_result_ids in Hin.
  apply list_elem_of_In, in_seq in Hin. lia.
Qed.

(** X13. A load never drops a handle: a coverage object of an earlier load
    still finds, after any later load, the record it was given then, and
    the detail callback answers for it exactly as before. *)
Theorem loadCoverage_keeps_old_handles lcovFilePath workspaceFolder token svc
    fileCoverage record :
  fileCoverageRecordMap svc !! fc_id fileCoverage = Some record ->
  (fc_id fileCoverage < objectCount (parser svc))%nat ->
  fileCoverageRecordMap (loadCoverage lcovFilePath workspaceFolder token svc).2
    !! fc_id fileCoverage = Some record /\
  (profile_loadDetailedCoverage fileCoverage
     (loadCoverage lcovFilePath workspaceFolder token svc).2).1 =
    (profile_loadDetailedCoverage fileCoverage svc).1.
Proof.
  intros Hhandle Hold.
  assert (Hkept : fileCoverageRecordMap
                    (loadCoverage lcovFilePath workspaceFolder token svc).2
                    !! fc_id fileCoverage = Some record).
  { destruct (loadCoverage_cases lcovFilePath workspaceFolder token svc)
      as [(_ & _ & -> & _) | (folder & -> & _ & _ & _ & _ & _ & ->)]; [done|].
    destruct (processCoverageFiles_spec (parse lcovFilePath).1 folder token 3
                (updateStatusBar (calculateCoverageStats (parse lcovFilePath).1) svc))
      as (visited & Hprefix & _ & _ & Hother & _).
    change (parser (updateStatusBar _ svc)) with (parser svc) in *.
    rewrite Hother; [done|]. intros Hin.
    apply (visited_ids_fresh _ _ _ _ _ Hprefix) in Hin. lia. }
  split; [done|]. unfold profile_loadDetailedCoverage.
  destruct (_ || _); [|done]. by rewrite Hkept, Hhandle.
Qed.

(** Every handle in the service belongs to a coverage object that
    was allocated: this holds for a new service and is kept by a load, by
    the detail callback and by [clearCoverage]. *)
Theorem handlesAllocated_invariant :
  handlesAllocated newCoverageService /\
  (forall lcovFilePath workspaceFolder token svc,
      handlesAllocated svc ->
      handlesAllocated (loadCoverage lcovFilePath workspaceFolder token svc).2) /\
  (forall fileCoverage svc,
      handlesAllocated svc ->
      handlesAllocated (profile_loadDetailedCoverage fileCoverage svc).2) /\
  (forall svc, handlesAllocated svc -> handlesAllocated (clearCoverage svc).2).
Proof.
  unfold handlesAllocated. split; [|split; [|split]].
  - intros id record Hid. simpl in Hid. by rewrite lookup_empty in Hid.
  - intros lcovFilePath workspaceFolder token svc Hsvc id record.
    destruct (loadCoverage_cases lcovFilePath workspaceFolder token svc)
      as [(_ & -> & -> & _) | (folder & -> & _ & _ & _ & _ & _ & ->)];
      [apply Hsvc|].
    destruct (processCoverageFiles_spec (parse lcovFilePath).1 folder token 3
                (updateStatusBar (calculateCoverageStats (parse lcovFilePath).1) svc))
      as (visited & Hprefix & _ & -> & Hother & _).
    change (parser (updateStatusBar _ svc)) with (parser svc) in *.
    change (fileCoverageRecordMap (updateStatusBar _ svc))
      with (fileCoverageRecordMap svc) in *.
    intros Hid.
    destruct (decide (id ∈ map fc_id visited)) as [Hin|Hout].
    + by apply (visited_ids_fresh _ _ _ _ _ Hprefix) in Hin as [_ ?].
    + rewrite (Hother id Hout) in Hid. apply Hsvc in Hid.
      rewrite convert_result_count. lia.
  - intros fileCoverage svc Hsvc id record. unfold profile_loadDetailedCoverage.
    destruct (_ || _); [|apply Hsvc].
    destruct (fileCoverageRecordMap svc !! fc_id fileCoverage) as [found|].
    + simpl. apply Hsvc.
    + pose proof (getFileRecord_objectCount (fc_uri fileCoverage) (parser svc)) as Hcount.
      destruct (getFileRecord _ _) as [[found|] parser']; simpl in *;
        rewrite Hcount; apply Hsvc.
  - intros svc Hsvc. apply Hsvc.
Qed.

End HandleLifetime.


Lemma loadCoverage_keeps_old_handles_witness :
  fileCoverageRecordMap
    (loadCoverage (platform := missingWorkspace) "/ws/coverage/lcov.info" (Some "/ws")
       neverCancelled loadedService).2 !! fc_id libCoverage = Some libRecord /\
  (profile_loadDetailedCoverage (platform := missingWorkspace) libCoverage
     (loadCoverage (platform := missingWorkspace) "/ws/coverage/lcov.info"
        (Some "/ws") neverCancelled loadedService).2).1 =
    (profile_loadDetailedCoverage (platform := missingWorkspace) libCoverage
       loadedService).1.
Proof.
  apply (loadCoverage_keeps_old_handles (platform := missingWorkspace)
           "/ws/coverage/lcov.info" (Some "/ws") neverCancelled loadedService
           libCoverage libRecord).
  - reflexivity.
  - vm_compute. lia.
Defined.

Lemma handlesAllocated_invariant_witness :
  handlesAllocated newCoverageService /\
  handlesAllocated
    (loadCoverage (platform := utilWorkspace) "/ws/coverage/lcov.info" (Some "/ws")
       neverCancelled newCoverageService).2.
Proof.
  split; [apply (proj1 (handlesAllocated_invariant (platform := utilWorkspace)))|].
  apply (proj1 (proj2 (handlesAllocated_invariant (platform := utilWorkspace)))).
  apply (proj1 (handlesAllocated_invariant (platform := utilWorkspace))).
Defined.

(** ** Statistics, the earlier resolver and the selection list *)


Lemma startsWith_app (folder rest : string) :
  startsWith (folder +:+ rest) folder = true.
Proof.
  unfold startsWith. induction folder as [|c folder IH]; simpl.
  - by destruct rest.
  - by destruct (ascii_dec c c).
Qed.

Lemma substringFrom_app (folder : string) (c : ascii) (rest : string) :
  substringFrom (String.length folder + 1) (folder +:+ String c rest) = rest.
Proof. induction folder as [|c' folder IH]; simpl; done. Qed.

Section FurtherProperties.
Context {platform : Platform}.


(** X16. The resolver extends the one of the earlier revision: a record
    that revision resolved (absolute and existing, or existing once joined
    onto the workspace folder) resolves now to the same path. *)
Theorem legacy_resolution_kept workspaceFolder recordFile cache cache' resolved :
  cacheConsistent cache ->
  cacheConsistent cache' ->
  (Legacy.resolveFilePath workspaceFolder recordFile cache).1 = Some resolved ->
  (resolveFilePath workspaceFolder recordFile cache').1 = Some resolved.
Proof.
  intros Hcache Hcache' Hlegacy.
  destruct (resolveFilePath_spec workspaceFolder recordFile cache' Hcache') as [-> _].
  unfold Legacy.resolveFilePath in Hlegacy. unfold resolve_spec.
  destruct (path_isAbsolute recordFile).
  - destruct (cachedExists_spec recordFile cache Hcache) as [Hfound _].
    destruct (cachedExists recordFile cache) as [found cache1]. simpl in Hfound.
    subst found. destruct (fs_existsSync recordFile); [|discriminate].
    simpl in *. congruence.
  - simpl.
    destruct (cachedExists_spec (path_join [workspaceFolder; recordFile]) cache Hcache)
      as [Hfound _].
    destruct (cachedExists _ cache) as [found cache1]. simpl in Hfound.
    subst found.
    destruct (fs_existsSync (path_join [workspaceFolder; recordFile]));
      [|discriminate].
    simpl in *. congruence.
Qed.

(** X17. In the selection list every file keeps its place and is labelled
    with its base name; a file whose path starts with the workspace folder
    is described by what follows the folder and one more character, any
    other file by its full path. *)
Theorem selectionItems_description folder files i file :
  files !! i = Some file ->
  (forall c rest,
      uri_fsPath file = folder +:+ String c rest ->
      selectionItems (Some folder) files !! i =
        Some {| QuickPickItem.label := path_basename (uri_fsPath file);
                QuickPickItem.description := rest;
                QuickPickItem.file := file |}) /\
  (startsWith (uri_fsPath file) folder = false ->
   selectionItems (Some folder) files !! i =
     Some {| QuickPickItem.label := path_basename (uri_fsPath file);
             QuickPickItem.description := uri_fsPath file;
             QuickPickItem.file := file |}) /\
  selectionItems None files !! i =
    Some {| QuickPickItem.label := path_basename (uri_fsPath file);
            QuickPickItem.description := uri_fsPath file;
            QuickPickItem.file := file |}.
Proof.
  intros Hfile. unfold selectionItems.
  change (map ?f files) with (f <$> files). rewrite !list_lookup_fmap, Hfile. simpl.
  split; [|split; [|done]].
  - intros c rest ->. by rewrite startsWith_app, substringFrom_app.
  - by intros ->.
Qed.
End FurtherProperties.


Lemma legacy_resolution_kept_witness :
  (resolveFilePath (platform := utilWorkspace) "/ws" "src/util.ts" ∅).1 =
    Some "/ws/src/util.ts".
Proof.
  apply (legacy_resolution_kept (platform := utilWorkspace) "/ws" "src/util.ts" ∅ ∅
           "/ws/src/util.ts").
  - exact (cacheConsistent_empty (platform := utilWorkspace)).
  - exact (cacheConsistent_empty (platform := utilWorkspace)).
  - reflexivity.
Defined.

Lemma selectionItems_description_witness :
  selectionItems (platform := utilWorkspace) (Some "/ws")
    [Posix.file_uri "/ws/coverage/lcov.info"] !! 0%nat =
    Some {| QuickPickItem.label := "lcov.info";
            QuickPickItem.description := "coverage/lcov.info";
            QuickPickItem.file := Posix.file_uri "/ws/coverage/lcov.info" |}.
Proof.
  apply (proj1 (selectionItems_description (platform := utilWorkspace) "/ws"
                  [Posix.file_uri "/ws/coverage/lcov.info"] 0
                  (Posix.file_uri "/ws/coverage/lcov.info") eq_refl)
           "/"%char "coverage/lcov.info").
  reflexivity.
Defined.

(** ** The status bar, the instance map and duplicate identities *)

Section LoadedState.
Context {platform : Platform}.

Lemma addCoverages_statusBar token fileCoverages :
  forall check added svc,
    statusBarText (addCoverages token check fileCoverages added svc).2 =
      statusBarText svc /\
    statusBarTooltip (addCoverages token check fileCoverages added svc).2 =
      statusBarTooltip svc.
Proof.
  induction fileCoverages as [|coverage rest IH]; intros check added svc; simpl;
    [done|].
  destruct (token check); [done|].
  destruct (getFileRecord _ _) as [record parser'].
  by destruct (IH (S check) (added ++ [coverage])
                 (Build_CoverageService parser'
                    match record with
                    | Some record => <[fc_id coverage := record]> (fileCoverageRecordMap svc)
                    | None => fileCoverageRecordMap svc
                    end (statusBarText svc) (statusBarTooltip svc))) as [-> ->].
Qed.

(** X18. Once a load has shown statistics, the status bar reads
    [<percentage>% Coverage] with the tooltip [<covered>/<total> lines
    covered] for those statistics, and keeps reading so whether or not the
    rest of the load is cancelled. *)
Theorem loadCoverage_status_bar lcovFilePath workspaceFolder token svc stats :
  shownStats (loadCoverage lcovFilePath workspaceFolder token svc).1 = Some stats ->
  statusBarText (loadCoverage lcovFilePath workspaceFolder token svc).2 =
    coveragePercentage stats +:+ "% Coverage" /\
  statusBarTooltip (loadCoverage lcovFilePath workspaceFolder token svc).2 =
    pretty (coveredLines stats) +:+ "/" +:+ pretty (totalLines stats)
    +:+ " lines covered".
Proof.
  unfold loadCoverage.
  destruct workspaceFolder as [folder|]; [|discriminate].
  destruct (parse lcovFilePath) as [records messages].
  destruct (token 0%nat); [discriminate|].
  destruct (length records =? 0)%nat; [discriminate|].
  destruct (token 1%nat); [discriminate|].
  destruct (token 2%nat); [by intros [= <-]|].
  unfold processCoverageFiles.
  destruct (convertToFileCoverage _ _ _) as [fileCoverages parser'].
  set (svc0 := Build_CoverageService _ _ _ _).
  destruct (addCoverages_statusBar token fileCoverages 3 [] svc0) as [Htext Htooltip].
  destruct (addCoverages _ _ _ _ _) as [added svc']. simpl in *.
  intros [= <-]. by rewrite Htext, Htooltip.
Qed.

Lemma convertRecord_instances workspaceFolder record result cache parser :
  ((convertRecord workspaceFolder record (result, cache, parser)).1.1 = result /\
   fileCoverageInstanceMap
     (convertRecord workspaceFolder record (result, cache, parser)).2 =
     fileCoverageInstanceMap parser) \/
  (exists fc,
     (convertRecord workspaceFolder record (result, cache, parser)).1.1 =
       result ++ [fc] /\
     fileCoverageInstanceMap
       (convertRecord workspaceFolder record (result, cache, parser)).2 =
       JsMap.set (uri_toString (fc_uri fc)) fc (fileCoverageInstanceMap parser)).
Proof.
  unfold convertRecord.
  destruct (resolveFilePath _ _ _) as [[resolved|] cache']; simpl; [|by left].
  destruct (FileCoverage_validate _ _ _); simpl; [|by left].
  right. by eexists.
Qed.

(** The instance map and the result of a pass, kept in step. *)
Lemma convert_fold_instances workspaceFolder records (st : ConvertState) :
  (forall k fc, JsMap.get k (fileCoverageInstanceMap st.2) = Some fc ->
     fc ∈ st.1.1 /\ uri_toString (fc_uri fc) = k) ->
  (forall fc, fc ∈ st.1.1 ->
     is_Some (JsMap.get (uri_toString (fc_uri fc)) (fileCoverageInstanceMap st.2))) ->
  (forall k fc,
     JsMap.get k
       (fileCoverageInstanceMap
          (fold_left (fun st record => convertRecord workspaceFolder record st)
             records st).2) = Some fc ->
     fc ∈ (fold_left (fun st record => convertRecord workspaceFolder record st)
             records st).1.1 /\ uri_toString (fc_uri fc) = k) /\
  (forall fc,
     fc ∈ (fold_left (fun st record => convertRecord workspaceFolder record st)
             records st).1.1 ->
     is_Some (JsMap.get (uri_toString (fc_uri fc))
                (fileCoverageInstanceMap
                   (fold_left (fun st record => convertRecord workspaceFolder record st)
                      records st).2))).
Proof.
  revert st. induction records as [|record records IH]; intros st Hsound Hcomplete;
    [done|].
  destruct st as [[result cache] parser]. cbn [fst snd] in Hsound, Hcomplete.
  cbn [fold_left]. apply IH.
  - intros k fc.
    destruct (convertRecord_instances workspaceFolder record result cache parser)
      as [[-> ->] | (new & -> & ->)]; [apply Hsound|].
    destruct (decide (uri_toString (fc_uri new) = k)) as [<-|Hne].
    + rewrite JsMap_get_set_eq. intros [= <-].
      split; [|done]. apply elem_of_app. right. apply list_elem_of_here.
    + rewrite JsMap_get_set_ne by done. intros Hget.
      destruct (Hsound k fc Hget) as [Hin Huri]. split; [|done].
      apply elem_of_app. by left.
  - intros fc.
    destruct (convertRecord_instances workspaceFolder record result cache parser)
      as [[-> ->] | (new & -> & ->)]; [apply Hcomplete|].
    intros Hfc.
    destruct (decide (uri_toString (fc_uri new) = uri_toString (fc_uri fc)))
      as [Heq|Hne].
    + rewrite <- Heq, JsMap_get_set_eq. by eexists.
    + rewrite JsMap_get_set_ne by done.
      apply elem_of_app in Hfc as [Hfc|Hfc]; [by apply Hcomplete|].
      apply list_elem_of_singleton in Hfc as ->. done.
Qed.

(** X19. After a pass, [getFileCoverageInstance] answers for the URI of
    every coverage object of the result, and what it returns is always an
    object of that result with the same URI string; nothing of an earlier
    pass is left in the instance map. *)
Theorem getFileCoverageInstance_of_pass records workspaceFolder parser :
  (forall fc,
      fc ∈ (convertToFileCoverage records workspaceFolder parser).1 ->
      is_Some (getFileCoverageInstance (fc_uri fc)
                 (convertToFileCoverage records workspaceFolder parser).2)) /\
  (forall uri fc,
      getFileCoverageInstance uri
        (convertToFileCoverage records workspaceFolder parser).2 = Some fc ->
      fc ∈ (convertToFileCoverage records workspaceFolder parser).1 /\
      uri_toString (fc_uri fc) = uri_toString uri).
Proof.
  unfold getFileCoverageInstance, convertToFileCoverage. cbn [fst snd].
  destruct (convert_fold_instances workspaceFolder records
              ([], ∅, clearFileRecords parser)) as [Hsound Hcomplete].
  - intros k fc Hget. discriminate.
  - intros fc Hfc. by apply elem_of_nil in Hfc.
  - split; [exact Hcomplete|]. intros uri fc. apply Hsound.
Qed.


End LoadedState.

Lemma convertToFileCoverage_sound_witness :
  libCoverage ∈
    (convertToFileCoverage (platform := utilWorkspace) [libRecord; srcRecord] "/ws"
       newLcovParser).1 /\
  exists record resolved,
    record ∈ [libRecord; srcRecord] /\
    resolve_spec (platform := utilWorkspace) "/ws" (file record) = Some resolved /\
    fs_existsSync (Platform := utilWorkspace) resolved = true /\
    fc_uri libCoverage = Uri_file (Platform := utilWorkspace) resolved /\
    statementCoverage libCoverage = statementCount record /\
    branchCoverage libCoverage = branchCount record /\
    declarationCoverage libCoverage = declarationCount record.
Proof.
  assert (Hin : libCoverage ∈
            (convertToFileCoverage (platform := utilWorkspace) [libRecord; srcRecord]
               "/ws" newLcovParser).1) by apply list_elem_of_here.
  split; [exact Hin|].
  exact (convertToFileCoverage_sound (platform := utilWorkspace)
           [libRecord; srcRecord] "/ws" newLcovParser libCoverage Hin).
Defined.

Lemma loadCoverage_status_bar_witness :
  statusBarText
    (loadCoverage (platform := utilWorkspace) "/ws/coverage/lcov.info" (Some "/ws")
       (cancelledFrom 3) newCoverageService).2 = "83.33% Coverage" /\
  statusBarTooltip
    (loadCoverage (platform := utilWorkspace) "/ws/coverage/lcov.info" (Some "/ws")
       (cancelledFrom 3) newCoverageService).2 = "10/12 lines covered".
Proof.
  apply (loadCoverage_status_bar (platform := utilWorkspace) "/ws/coverage/lcov.info"
           (Some "/ws") (cancelledFrom 3) newCoverageService
           {| totalLines := 12; coveredLines := 10; coveragePercentage := "83.33" |}).
  reflexivity.
Defined.

